(** * Versioned resources ([pkg/cloud/api/resource.go]) and the graph
    renderer ([pkg/cloud/resgraph/algo/graphviz/graphviz.go]).

    A shallow embedding of the two Go files.  Methods with a pointer
    receiver become functions that take the resource and return the
    resource they leave behind together with the Go return values; a Go
    [error] is an [option error] ([None] is [nil]). *)

From Stdlib Require Import Ascii.
From stdpp Require Import base functions list strings gmap sorting.

Set Warnings "-register-all,-clear-no-such-hyp".

(** ** Package [meta] *)
Module meta.

(** [meta.Version]; the three constants the package uses. *)
Inductive Version := VersionGA | VersionAlpha | VersionBeta.

#[global] Instance Version_eq_dec : EqDecision Version.
Proof. solve_decision. Defined.

(** Modelled from the spec: the key inside a resource identity (its
    declaration is in another package); only the name-like component that
    the constructor reads is kept. *)
Record Key := { Name : string }.

End meta.

(** ** Package [cloud] *)
Module cloud.

(** Modelled from the spec: the opaque external identity of a resource.
    The constructor reads [resourceID.Key.Name] and nothing else; [Key] is
    a pointer, [None] when it is nil. *)
Record ResourceID := { Key : option meta.Key }.

End cloud.

(** ** The part of Go's [reflect] that [NewResource] relies on *)
Module reflect.

Inductive Kind := KBool | KInt | KString | KPtr | KSlice | KStruct.

#[global] Instance Kind_eq_dec : EqDecision Kind.
Proof. solve_decision. Defined.

(** Go types: predeclared types, defined (named) types, pointers, slices
    and structs with their fields in declaration order (no embedded
    fields, so a field is found by name among the declared ones). *)
Inductive GoType :=
| TBool
| TInt
| TString
| TNamed (name : string) (underlying : GoType)
| TPtr (elem : GoType)
| TSlice (elem : GoType)
| TStruct (fields : list (string * GoType)).

(** The payload of a value. *)
Inductive Data :=
| DBool (b : bool)
| DInt (z : Z)
| DString (s : string)
| DNil
| DPtr (d : Data)
| DSlice (l : list Data)
| DStruct (fs : list (string * Data)).

(** [reflect.Value]: a payload together with its dynamic type. *)
Record Value := { typ : GoType; data : Data }.

(** [Type.Kind()]: a defined type has the kind of its underlying type. *)
Fixpoint kind (t : GoType) : Kind :=
  match t with
  | TBool => KBool
  | TInt => KInt
  | TString => KString
  | TNamed _ u => kind u
  | TPtr _ => KPtr
  | TSlice _ => KSlice
  | TStruct _ => KStruct
  end.

(** The fields of a struct type, through type names. *)
Fixpoint struct_fields (t : GoType) : option (list (string * GoType)) :=
  match t with
  | TNamed _ u => struct_fields u
  | TStruct fs => Some fs
  | _ => None
  end.

(** The zero value of a type, as [var x T] gives it. *)
Fixpoint zero_data (t : GoType) : Data :=
  match t with
  | TBool => DBool false
  | TInt => DInt 0
  | TString => DString ""
  | TNamed _ u => zero_data u
  | TPtr _ => DNil
  | TSlice _ => DNil
  | TStruct fs => DStruct (map (fun nt => (nt.1, zero_data nt.2)) fs)
  end.

Definition Zero (t : GoType) : Value := {| typ := t; data := zero_data t |}.

(** Lookup in an association list of fields, first match. *)
Fixpoint assoc {A} (name : string) (fs : list (string * A)) : option A :=
  match fs with
  | [] => None
  | (n, a) :: fs' => if decide (n = name) then Some a else assoc name fs'
  end.

Fixpoint assoc_set {A} (name : string) (a : A) (fs : list (string * A))
  : list (string * A) :=
  match fs with
  | [] => []
  | (n, b) :: fs' =>
      if decide (n = name) then (n, a) :: fs' else (n, b) :: assoc_set name a fs'
  end.

(** What a call into [reflect] can abort with, and the run-time panic of a
    field read through a nil pointer. *)
Inductive panic :=
| PanicNotStruct (t : GoType)
| PanicNotAssignable (from to : GoType)
| PanicMessage (msg : string)
| PanicNilDereference.

(** A computation that either returns or aborts the program. *)
Inductive result (A : Type) :=
| Returned (a : A)
| Panicked (p : panic).
Arguments Returned {A} a.
Arguments Panicked {A} p.

(** [Type.FieldByName(name)] on the type: aborts on a type that is not a
    struct, otherwise reports the field's type when the field exists. *)
Definition Type_FieldByName (t : GoType) (name : string)
  : result (option GoType) :=
  match struct_fields t with
  | None => Panicked (PanicNotStruct t)
  | Some fs => Returned (assoc name fs)
  end.

(** [Value.FieldByName(name)]: the field as a value of its declared type;
    [None] is the invalid (zero) [reflect.Value]. *)
Definition Value_FieldByName (v : Value) (name : string) : option Value :=
  match struct_fields (typ v), data v with
  | Some fs, DStruct ds =>
      match assoc name fs, assoc name ds with
      | Some t, Some d => Some {| typ := t; data := d |}
      | _, _ => None
      end
  | _, _ => None
  end.

(** Assignability of a value of type [from] to a variable of type [to], for
    the types above (no interfaces, no channels): the types are identical,
    or they have identical underlying types and at most one of them has a
    name.  Predeclared types have a name. *)
Fixpoint GoType_eqb (a b : GoType) : bool :=
  match a, b with
  | TBool, TBool | TInt, TInt | TString, TString => true
  | TNamed n u, TNamed m w => bool_decide (n = m) && GoType_eqb u w
  | TPtr x, TPtr y | TSlice x, TSlice y => GoType_eqb x y
  | TStruct fs, TStruct gs =>
      (fix go (fs gs : list (string * GoType)) : bool :=
         match fs, gs with
         | [], [] => true
         | (n, x) :: fs', (m, y) :: gs' =>
             bool_decide (n = m) && GoType_eqb x y && go fs' gs'
         | _, _ => false
         end) fs gs
  | _, _ => false
  end.

Definition hasName (t : GoType) : bool :=
  match t with
  | TBool | TInt | TString | TNamed _ _ => true
  | _ => false
  end.

Fixpoint underlying (t : GoType) : GoType :=
  match t with
  | TNamed _ u => underlying u
  | _ => t
  end.

Definition assignable (from to : GoType) : bool :=
  GoType_eqb from to
  || (negb (hasName from && hasName to)
      && GoType_eqb (underlying from) (underlying to)).

(** [v.FieldByName(name).Set(x)] on an addressable struct [v]: aborts when
    [x] is not assignable to the field's type, otherwise stores it. *)
Definition Value_SetField (v : Value) (name : string) (x : Value)
  : result Value :=
  match Value_FieldByName v name with
  | None => Panicked (PanicMessage "reflect: call of reflect.Value.Set on zero Value")
  | Some f =>
      if assignable (typ x) (typ f) then
        match data v with
        | DStruct ds =>
            Returned {| typ := typ v; data := DStruct (assoc_set name (data x) ds) |}
        | _ => Returned v
        end
      else Panicked (PanicNotAssignable (typ x) (typ f))
  end.

(** [reflect.ValueOf(s)] for a Go string. *)
Definition ValueOf_string (s : string) : Value :=
  {| typ := TString; data := DString s |}.

End reflect.

(** ** Package [api]: [resource.go] *)
Module api.
Import meta.
Export reflect.

(** [ConversionContext] gives which version => version the error occurred
    on.  The sentinel [conversionContextCount] sizes the error table. *)
Inductive ConversionContext :=
| GAToAlphaConversion
| GAToBetaConversion
| AlphaToGAConversion
| AlphaToBetaConversion
| BetaToGAConversion
| BetaToAlphaConversion.

#[global] Instance ConversionContext_eq_dec : EqDecision ConversionContext.
Proof. solve_decision. Defined.

(** The value of each constant ([iota]). *)
Definition ConversionContext_int (cc : ConversionContext) : Z :=
  match cc with
  | GAToAlphaConversion => 0
  | GAToBetaConversion => 1
  | AlphaToGAConversion => 2
  | AlphaToBetaConversion => 3
  | BetaToGAConversion => 4
  | BetaToAlphaConversion => 5
  end.

Definition conversionContextCount : Z := 6.

(** The source and the destination version of a context. *)
Definition context_src (cc : ConversionContext) : Version :=
  match cc with
  | GAToAlphaConversion | GAToBetaConversion => VersionGA
  | AlphaToGAConversion | AlphaToBetaConversion => VersionAlpha
  | BetaToGAConversion | BetaToAlphaConversion => VersionBeta
  end.

Definition context_dest (cc : ConversionContext) : Version :=
  match cc with
  | AlphaToGAConversion | BetaToGAConversion => VersionGA
  | GAToAlphaConversion | BetaToAlphaConversion => VersionAlpha
  | GAToBetaConversion | AlphaToBetaConversion => VersionBeta
  end.

(** Modelled from the spec: [Path] (declared in another file of the
    package) is an ordered sequence of navigation segments, a field name or
    a sequence index each, compared structurally. *)
Inductive PathSegment :=
| PathField (name : string)
| PathIndex (i : nat).

Definition Path := list PathSegment.

(** Go's [any], as far as this file stores it: a value with its type. *)
Definition any := Value.

(** [MissingField] describes a field that was lost when converting between
    API versions. *)
Record MissingField := {
  mfContext : ConversionContext;
  mfPath : Path;
  mfValue : any
}.

(** [ConversionError] is returned from the To*() methods. *)
Record ConversionError := { MissingFields : list MissingField }.

(** [missingFieldOnCopy] (declared with the copier): the two fields that
    the To*() methods read. *)
Record missingFieldOnCopy := {
  mcPath : Path;
  mcValue : any
}.

Record conversionErrors := { missingFields : list missingFieldOnCopy }.

(** Go errors: a [*ConversionError], or an error that is a message
    ([fmt.Errorf], and whatever the helpers of the package return). *)
Inductive error :=
| ConversionErr (e : ConversionError)
| errorString (msg : string).

Definition hasErr (e : ConversionError) : bool :=
  bool_decide (0 < length (MissingFields e))%nat.

(** The rest of package [api] that [resource.go] calls and that is defined
    in other files: the structural copier, the schema checks and the
    formatting of a missing-field list with [%v], over the two types
    [FieldTraits] and [copierOption] of the package.  Each function is given
    by what it returns and by what it leaves in the value it writes:
    - [copier_do opts dest src] is [c := newCopier(opts...); c.do(dest, src)]:
      the destination afterwards, [c.missing] and the error;
    - [checkPostAccess traits src] returns the validation error;
    - [fillNullAndForceSend traits v] is the value afterwards and the
      error. *)
Class Package (FieldTraits copierOption : Type) := {
  copier_do : list copierOption → Value → Value →
              Value * list missingFieldOnCopy * option error;
  checkPostAccess : FieldTraits → Value → option error;
  fillNullAndForceSend : FieldTraits → Value → Value * option error;
  Sprint_MissingFields : list MissingField → string
}.

Section resource.
Context {FieldTraits copierOption : Type} `{!Package FieldTraits copierOption}.

(** [ConversionError.Error()]. *)
Definition ConversionError_Error (e : ConversionError) : string :=
  "ConversionError: missing fields " +:+ Sprint_MissingFields (MissingFields e).

Definition error_Error (e : error) : string :=
  match e with
  | ConversionErr c => ConversionError_Error c
  | errorString msg => msg
  end.

(** An [error] under [%v]. *)
Definition Sprint_error (e : option error) : string :=
  match e with
  | None => "<nil>"
  | Some e => error_Error e
  end.

(** The interface [TypeTrait]: the six bridging hooks, each given the
    destination and the source and returning the destination it leaves and
    its error, and the field traits of each version. *)
Record TypeTrait := {
  CopyHelperGAtoAlpha : Value → Value → Value * option error;
  CopyHelperGAtoBeta : Value → Value → Value * option error;
  CopyHelperAlphaToGA : Value → Value → Value * option error;
  CopyHelperAlphaToBeta : Value → Value → Value * option error;
  CopyHelperBetaToGA : Value → Value → Value * option error;
  CopyHelperBetaToAlpha : Value → Value → Value * option error;
  TypeTrait_FieldTraits : Version → FieldTraits
}.

(** The struct [resource]: the three representations as the reflection
    code sees them, and the error table, one slot per context. *)
Record resource := {
  copierOptions : list copierOption;
  typeTrait : TypeTrait;
  ga : Value;
  alpha : Value;
  beta : Value;
  resourceID : option cloud.ResourceID;
  errors : ConversionContext → conversionErrors
}.

Definition set_ga (v : Value) (u : resource) : resource :=
  {| copierOptions := copierOptions u; typeTrait := typeTrait u;
     ga := v; alpha := alpha u; beta := beta u;
     resourceID := resourceID u; errors := errors u |}.

Definition set_alpha (v : Value) (u : resource) : resource :=
  {| copierOptions := copierOptions u; typeTrait := typeTrait u;
     ga := ga u; alpha := v; beta := beta u;
     resourceID := resourceID u; errors := errors u |}.

Definition set_beta (v : Value) (u : resource) : resource :=
  {| copierOptions := copierOptions u; typeTrait := typeTrait u;
     ga := ga u; alpha := alpha u; beta := v;
     resourceID := resourceID u; errors := errors u |}.

Definition set_errors (e : ConversionContext → conversionErrors)
  (u : resource) : resource :=
  {| copierOptions := copierOptions u; typeTrait := typeTrait u;
     ga := ga u; alpha := alpha u; beta := beta u;
     resourceID := resourceID u; errors := e |}.

(** A pointer to one of the three representation fields, [&u.ga],
    [&u.alpha] or [&u.beta], is the version that names the field. *)
Definition load (u : resource) (p : Version) : Value :=
  match p with
  | VersionGA => ga u
  | VersionAlpha => alpha u
  | VersionBeta => beta u
  end.

Definition store (p : Version) (v : Value) (u : resource) : resource :=
  match p with
  | VersionGA => set_ga v u
  | VersionAlpha => set_alpha v u
  | VersionBeta => set_beta v u
  end.

Definition ResourceID (u : resource) : option cloud.ResourceID := resourceID u.

(** *** [NewResource] *)

(** The baseline trait installed when the caller passes [nil]; its
    declaration is in another file of the package. *)
Variable BaseTypeTrait : TypeTrait.

(** [resourceID.Key.Name], read through the two pointers; [None] when one
    of them is nil and the read aborts. *)
Definition Key_Name (resourceID : option cloud.ResourceID) : option string :=
  match resourceID with
  | None => None
  | Some r =>
      match cloud.Key r with
      | None => None
      | Some k => Some (meta.Name k)
      end
  end.

(** The closure [setName] of [NewResource], applied to the addressable
    struct [v]: set [.Name] from the resource identity.  The argument of
    [Set] is evaluated, and aborts on a nil pointer, before [Set] runs. *)
Definition setName (resourceID : option cloud.ResourceID) (v : Value)
  : result Value :=
  match Type_FieldByName (typ v) "Name" with
  | Panicked p => Panicked p
  | Returned None => Returned v
  | Returned (Some ft) =>
      if bool_decide (kind ft ≠ KString) then Returned v
      else
        match Value_FieldByName v "Name" with
        | None => Panicked (PanicMessage "type does not have .Name (*reflect.rtype)")
        | Some _ =>
            match Key_Name resourceID with
            | None => Panicked PanicNilDereference
            | Some name => Value_SetField v "Name" (ValueOf_string name)
            end
        end
  end.

(** [NewResource[GA, Alpha, Beta](resourceID, typeTrait)].  The type
    arguments are explicit; the function has a single result, the resource,
    and no error result.  [resourceID] is a pointer, [None] when nil. *)
Definition NewResource (GA Alpha Beta : GoType)
  (resourceID : option cloud.ResourceID) (typeTrait : option TypeTrait)
  : result resource :=
  let typeTrait :=
    match typeTrait with
    | None => BaseTypeTrait
    | Some t => t
    end in
  let obj :=
    {| copierOptions := []; typeTrait := typeTrait;
       ga := Zero GA; alpha := Zero Alpha; beta := Zero Beta;
       resourceID := resourceID;
       errors := fun _ => {| missingFields := [] |} |} in
  match setName resourceID (ga obj) with
  | Panicked p => Panicked p
  | Returned v =>
      let obj := set_ga v obj in
      match setName resourceID (alpha obj) with
      | Panicked p => Panicked p
      | Returned v =>
          let obj := set_alpha v obj in
          match setName resourceID (beta obj) with
          | Panicked p => Panicked p
          | Returned v => Returned (set_beta v obj)
          end
      end
  end.

(** *** [postAccess] *)

Definition postAccessSkipValidation : Z := Z.shiftl 1 0.

(** The local struct [convert] of [postAccess]: the destination pointer,
    the closure over the resource that runs the hook, and the pointer to
    the slot of the error table. *)
Record convert := {
  dest : Version;
  copyHelper : resource → resource * option error;
  errors_slot : ConversionContext
}.

(** Run a hook of the trait on the fields [&u.d] and [&u.s]. *)
Definition call_hook
  (hook : TypeTrait → Value → Value → Value * option error)
  (d s : Version) (u : resource) : resource * option error :=
  let '(v, err) := hook (typeTrait u) (load u d) (load u s) in
  (store d v u, err).

(** The [switch srcVer] of [postAccess]: the source pointer and the two
    conversions, in the order they are appended. *)
Definition conversions (srcVer : Version) : Version * list convert :=
  match srcVer with
  | VersionGA =>
      (VersionGA,
       [ {| dest := VersionAlpha;
            copyHelper := call_hook CopyHelperGAtoAlpha VersionAlpha VersionGA;
            errors_slot := GAToAlphaConversion |};
         {| dest := VersionBeta;
            copyHelper := call_hook CopyHelperGAtoBeta VersionBeta VersionGA;
            errors_slot := GAToBetaConversion |} ])
  | VersionAlpha =>
      (VersionAlpha,
       [ {| dest := VersionGA;
            copyHelper := call_hook CopyHelperAlphaToGA VersionGA VersionAlpha;
            errors_slot := AlphaToGAConversion |};
         {| dest := VersionBeta;
            copyHelper := call_hook CopyHelperAlphaToBeta VersionBeta VersionAlpha;
            errors_slot := AlphaToBetaConversion |} ])
  | VersionBeta =>
      (VersionBeta,
       [ {| dest := VersionGA;
            copyHelper := call_hook CopyHelperBetaToGA VersionGA VersionBeta;
            errors_slot := BetaToGAConversion |};
         {| dest := VersionAlpha;
            copyHelper := call_hook CopyHelperBetaToAlpha VersionAlpha VersionBeta;
            errors_slot := BetaToAlphaConversion |} ])
  end.

(** One iteration of the loop over the conversions: copy, hook, then the
    assignment [conv.errors.missingFields = c.missing].  The right
    component is [Some] when the iteration returns from [postAccess]. *)
Definition convert_step (src : Version) (conv : convert) (u : resource)
  : resource * option error :=
  let '(d, missing, err) :=
    copier_do (copierOptions u) (load u (dest conv)) (load u src) in
  let u := store (dest conv) d u in
  match err with
  | Some e => (u, Some e)
  | None =>
      let '(u, err) := copyHelper conv u in
      match err with
      | Some e => (u, Some e)
      | None =>
          (set_errors (<[errors_slot conv := {| missingFields := missing |}]> (errors u)) u,
           None)
      end
  end.

(** [for _, conv := range conversions { ... }; return nil]. *)
Fixpoint convert_loop (src : Version) (convs : list convert) (u : resource)
  : resource * option error :=
  match convs with
  | [] => (u, None)
  | conv :: rest =>
      match convert_step src conv u with
      | (u, Some e) => (u, Some e)
      | (u, None) => convert_loop src rest u
      end
  end.

Definition postAccess (srcVer : Version) (flags : Z) (u : resource)
  : resource * option error :=
  let '(src, convs) := conversions srcVer in
  if bool_decide (Z.land flags postAccessSkipValidation = 0%Z) then
    match checkPostAccess (TypeTrait_FieldTraits (typeTrait u) srcVer) (load u src) with
    | Some err => (u, Some err)
    | None => convert_loop src convs u
    end
  else convert_loop src convs u.

(** *** [Access], [AccessAlpha], [AccessBeta] *)

Definition Access (f : Value → Value) (u : resource) : resource * option error :=
  postAccess VersionGA 0 (set_ga (f (ga u)) u).

Definition AccessAlpha (f : Value → Value) (u : resource) : resource * option error :=
  postAccess VersionAlpha 0 (set_alpha (f (alpha u)) u).

Definition AccessBeta (f : Value → Value) (u : resource) : resource * option error :=
  postAccess VersionBeta 0 (set_beta (f (beta u)) u).

(** *** [ToGA], [ToAlpha], [ToBeta] *)

(** The two nested loops shared by the three methods: for each context in
    order, append one tagged entry per recorded missing field. *)
Definition collect (ccs : list ConversionContext) (u : resource)
  : ConversionError :=
  {| MissingFields :=
       foldl (fun errs cc =>
                foldl (fun errs mf =>
                         (errs ++ [ {| mfContext := cc;
                                       mfPath := mcPath mf;
                                       mfValue := mcValue mf |} ])%list)
                      errs (missingFields (errors u cc)))
             [] ccs |}.

Definition ToGA (u : resource) : Value * option error :=
  let errs := collect [AlphaToGAConversion; BetaToGAConversion] u in
  if hasErr errs then (ga u, Some (ConversionErr errs)) else (ga u, None).

Definition ToAlpha (u : resource) : Value * option error :=
  let errs := collect [GAToAlphaConversion; BetaToAlphaConversion] u in
  if hasErr errs then (alpha u, Some (ConversionErr errs)) else (alpha u, None).

Definition ToBeta (u : resource) : Value * option error :=
  let errs := collect [GAToBetaConversion; AlphaToBetaConversion] u in
  if hasErr errs then (beta u, Some (ConversionErr errs)) else (beta u, None).

(** *** [ImpliedVersion] *)

Definition indeterminant (gaErr alphaErr betaErr : option error) : error :=
  errorString
    ("indeterminant version (ga=" +:+ Sprint_error gaErr +:+
     ", alpha=" +:+ Sprint_error alphaErr +:+
     ", beta=" +:+ Sprint_error betaErr +:+ ")").

Definition ImpliedVersion (u : resource) : Version * option error :=
  let gaErr := (ToGA u).2 in
  let alphaErr := (ToAlpha u).2 in
  let betaErr := (ToBeta u).2 in
  match gaErr, alphaErr, betaErr with
  | None, None, None => (VersionGA, None)
  | Some _, None, Some _ => (VersionAlpha, None)
  | Some _, Some _, None => (VersionBeta, None)
  | _, _, _ => (VersionGA, Some (indeterminant gaErr alphaErr betaErr))
  end.

(** *** [Set], [SetAlpha], [SetBeta] *)

Definition Set_ (src : Value) (u : resource) : resource * option error :=
  let '(d, _, err) := copier_do (copierOptions u) (ga u) src in
  let u := set_ga d u in
  match err with
  | Some e => (u, Some e)
  | None => postAccess VersionGA postAccessSkipValidation u
  end.

Definition SetAlpha (src : Value) (u : resource) : resource * option error :=
  let '(d, _, err) := copier_do (copierOptions u) (alpha u) src in
  let u := set_alpha d u in
  match err with
  | Some e => (u, Some e)
  | None => postAccess VersionAlpha postAccessSkipValidation u
  end.

Definition SetBeta (src : Value) (u : resource) : resource * option error :=
  let '(d, _, err) := copier_do (copierOptions u) (beta u) src in
  let u := set_beta d u in
  match err with
  | Some e => (u, Some e)
  | None => postAccess VersionBeta postAccessSkipValidation u
  end.

(** *** [Freeze] *)

(** The struct [frozenResource]: the resource it points to, as [Freeze]
    left it, and the version chosen. *)
Record frozenResource := { x : resource; ver : Version }.

(** [fillNullAndForceSend(u.typeTrait.FieldTraits(v), &u.<v>)]. *)
Definition fill (v : Version) (u : resource) : resource * option error :=
  let '(d, err) :=
    fillNullAndForceSend (TypeTrait_FieldTraits (typeTrait u) v) (load u v) in
  (store v d u, err).

Definition Freeze (u : resource)
  : resource * (option frozenResource * option error) :=
  match ImpliedVersion u with
  | (_, Some err) => (u, (None, Some err))
  | (ver, None) =>
      match (if bool_decide (ver ≠ VersionGA) then fill VersionGA u else (u, None)) with
      | (u, Some err) => (u, (None, Some err))
      | (u, None) =>
          match (if bool_decide (ver ≠ VersionAlpha) then fill VersionAlpha u else (u, None)) with
          | (u, Some err) => (u, (None, Some err))
          | (u, None) =>
              match (if bool_decide (ver ≠ VersionBeta) then fill VersionBeta u else (u, None)) with
              | (u, Some err) => (u, (None, Some err))
              | (u, None) => (u, (Some {| x := u; ver := ver |}, None))
              end
          end
      end
  end.

(** *** The methods of each family, selected by the version they name *)

Definition To (v : Version) (u : resource) : Value * option error :=
  match v with
  | VersionGA => ToGA u
  | VersionAlpha => ToAlpha u
  | VersionBeta => ToBeta u
  end.

Definition AccessOf (v : Version) (f : Value → Value) (u : resource)
  : resource * option error :=
  match v with
  | VersionGA => Access f u
  | VersionAlpha => AccessAlpha f u
  | VersionBeta => AccessBeta f u
  end.

Definition SetOf (v : Version) (src : Value) (u : resource)
  : resource * option error :=
  match v with
  | VersionGA => Set_ src u
  | VersionAlpha => SetAlpha src u
  | VersionBeta => SetBeta src u
  end.

(** The hook of the trait that belongs to a context. *)
Definition hook_of (t : TypeTrait) (cc : ConversionContext)
  : Value → Value → Value * option error :=
  match cc with
  | GAToAlphaConversion => CopyHelperGAtoAlpha t
  | GAToBetaConversion => CopyHelperGAtoBeta t
  | AlphaToGAConversion => CopyHelperAlphaToGA t
  | AlphaToBetaConversion => CopyHelperAlphaToBeta t
  | BetaToGAConversion => CopyHelperBetaToGA t
  | BetaToAlphaConversion => CopyHelperBetaToAlpha t
  end.

(** The [convert] value that [postAccess] builds for a context. *)
Definition conversion (cc : ConversionContext) : convert :=
  {| dest := context_dest cc;
     copyHelper := call_hook (fun t => hook_of t cc) (context_dest cc) (context_src cc);
     errors_slot := cc |}.

(** The entries that a context contributes to a [ConversionError]. *)
Definition tagged (u : resource) (cc : ConversionContext) : list MissingField :=
  map (fun mf => {| mfContext := cc; mfPath := mcPath mf; mfValue := mcValue mf |})
      (missingFields (errors u cc)).

(** *** [CheckSchema] *)

(** [checkSchema], defined in another file of the package, applied to the
    type it is given and returning its error. *)
Variable checkSchema : GoType → option error.

(** [reflect.TypeOf(&u.ga)] is the pointer type to the type of the
    field. *)
Definition CheckSchema (u : resource) : option error :=
  match checkSchema (TPtr (typ (ga u))) with
  | Some err => Some err
  | None =>
      match checkSchema (TPtr (typ (alpha u))) with
      | Some err => Some err
      | None =>
          match checkSchema (TPtr (typ (beta u))) with
          | Some err => Some err
          | None => None
          end
      end
  end.

End resource.

Arguments TypeTrait : clear implicits.
Arguments resource : clear implicits.
Arguments frozenResource : clear implicits.
Arguments convert : clear implicits.

(** The six contexts in the order of their constants, those that lead into
    a version and those that lead out of it. *)
Definition all_contexts : list ConversionContext :=
  [GAToAlphaConversion; GAToBetaConversion; AlphaToGAConversion;
   AlphaToBetaConversion; BetaToGAConversion; BetaToAlphaConversion].

Definition inbound (v : Version) : list ConversionContext :=
  filter (fun cc => context_dest cc = v) all_contexts.

Definition outbound (v : Version) : list ConversionContext :=
  filter (fun cc => context_src cc = v) all_contexts.

(** A package that differs from [P] in its post-access validation only. *)
Definition with_checkPostAccess {FieldTraits copierOption : Type}
  (P : Package FieldTraits copierOption)
  (check : FieldTraits → Value → option error)
  : Package FieldTraits copierOption :=
  {| copier_do := @copier_do _ _ P;
     checkPostAccess := check;
     fillNullAndForceSend := @fillNullAndForceSend _ _ P;
     Sprint_MissingFields := @Sprint_MissingFields _ _ P |}.

(** Where [setName] returns: the type is a struct, and when it has a
    [Name] field of kind string, the field is of the predeclared type
    [string] and the identity and its key are not nil. *)
Definition name_field (t : GoType) : option GoType :=
  match struct_fields t with
  | Some fs => assoc "Name" fs
  | None => None
  end.

Definition wrong_kind_name (t : GoType) : Prop :=
  ∃ ft, name_field t = Some ft ∧ kind ft ≠ KString.

Definition setName_returns (resourceID : option cloud.ResourceID)
  (t : GoType) : Prop :=
  is_Some (struct_fields t) ∧
  ∀ ft, name_field t = Some ft → kind ft = KString →
        ft = TString ∧ is_Some (Key_Name resourceID).

(** The type argument of [NewResource] behind each representation. *)
Definition rep_type (GA Alpha Beta : GoType) (v : Version) : GoType :=
  match v with
  | VersionGA => GA
  | VersionAlpha => Alpha
  | VersionBeta => Beta
  end.

(** The order in which [Freeze] and [CheckSchema] go through the
    versions. *)
Definition Version_rank (v : Version) : nat :=
  match v with
  | VersionGA => 0
  | VersionAlpha => 1
  | VersionBeta => 2
  end.

End api.

(** ** Package [graphviz]: [graphviz.go] *)
Module graphviz.

(** The two characters that a Rocq literal cannot hold. *)
Definition nl : string := String "010"%char "".
Definition dq : string := String "034"%char "".

(** Modelled from the spec: the operation classification of package
    [resgraph] (create, delete, recreate, update, no-op, unknown).  It is an
    integer type in Go, so [opColor] has a branch for any other value. *)
Inductive Operation :=
| OpUnknown
| OpNothing
| OpCreate
| OpRecreate
| OpUpdate
| OpDelete
| OpOther (n : Z).

(** Modelled from the spec: an outbound reference, the identity referred to
    and the path at which the reference occurs. *)
Record ResourceRef := {
  From : cloud.ResourceID;
  Path : api.Path;
  To : cloud.ResourceID
}.

(** Modelled from the spec: what the renderer reads of a node of the
    graph.  [State] and the two errors are kept as the text that [%v]
    prints for them. *)
Record Node := {
  ID : cloud.ResourceID;
  LocalPlan_GraphvizString : string;
  LocalPlan_Op : Operation;
  State : string;
  OutRefs : list ResourceRef * option string;
  GetErr : option string
}.

(** A graph, as [g.All()] lists its nodes. *)
Definition Graph := list Node.

Record viznode := {
  name : string;
  color : string;
  shape : string;
  style : string;
  kv : gmap string string
}.

Record vizedge := {
  from : cloud.ResourceID;
  to : cloud.ResourceID;
  field : string
}.

Section render.
(** [ResourceID.String()] and [Path.String()], defined in other packages. *)
Variable ResourceID_String : cloud.ResourceID → string.
Variable Path_String : api.Path → string.

Fixpoint indent (n : nat) : string :=
  match n with
  | O => ""
  | S n => indent n +:+ "  "
  end.

Definition opColor (op : Operation) : string :=
  match op with
  | OpCreate => "chartreuse"
  | OpDelete => "lightcoral"
  | OpRecreate => "orange"
  | OpUpdate => "khaki1"
  | OpNothing => "beige"
  | OpUnknown => "red"
  | OpOther _ => "mediumpurple1"
  end.

(** [sort.Strings] applied to the keys collected by ranging over the map:
    the keys in increasing byte-wise order. *)
Definition sorted_keys (m : gmap string string) : list string :=
  merge_sort String.le (map fst (map_to_list m)).

(** [n.kv[k]] under [%v]. *)
Definition kv_get (m : gmap string string) (k : string) : string :=
  match m !! k with
  | Some v => v
  | None => "<nil>"
  end.

Definition viznode_lines (n : viznode) : list (nat * string) :=
  let lines := [] in
  let lines := lines ++ [(1%nat, dq +:+ name n +:+ dq +:+ " [label=<")] in
  let lines := lines ++ [(2%nat, "<table border=" +:+ dq +:+ "0" +:+ dq +:+ ">")] in
  let lines := lines ++
    [(3%nat, "<tr><td colspan=" +:+ dq +:+ "2" +:+ dq +:+ "><font point-size=" +:+ dq +:+
             "16" +:+ dq +:+ ">\N</font></td></tr>")] in
  let lines := lines ++
    [(3%nat, "<tr><td colspan=" +:+ dq +:+ "2" +:+ dq +:+ ">---</td></tr>")] in
  let keys := sorted_keys (kv n) in
  let lines :=
    foldl (fun lines k =>
             lines ++
             [(3%nat, "<tr><td>" +:+ k +:+ "</td><td align=" +:+ dq +:+ "left" +:+ dq +:+
                      ">" +:+ kv_get (kv n) k +:+ "</td></tr>")])
          lines keys in
  let lines := lines ++ [(2%nat, "</table>")] in
  let attribsStr :=
    foldl (fun attribsStr at_ =>
             if bool_decide (at_.2 ≠ "") then
               attribsStr +:+ "," +:+ at_.1 +:+ "=" +:+ at_.2
             else attribsStr)
          "" [("color", color n); ("shape", shape n); ("style", style n)] in
  lines ++ [(1%nat, ">" +:+ attribsStr +:+ "]")].

Definition viznode_String (n : viznode) : string :=
  foldl (fun out l => out +:+ (indent l.1 +:+ l.2 +:+ nl)) "" (viznode_lines n).

Definition vizedge_String (e : vizedge) : string :=
  "  " +:+ dq +:+ ResourceID_String (from e) +:+ dq +:+ " -> " +:+
  dq +:+ ResourceID_String (to e) +:+ dq +:+ " [label=<" +:+ field e +:+ ">]" +:+ nl.

(** The body of the loop of [Do] for one node: the text appended to the
    buffer. *)
Definition Do_node (buf : string) (node : Node) : string :=
  let gn :=
    {| name := ResourceID_String (ID node);
       color := "";
       shape := "box";
       style := "filled";
       kv := <["state" := State node]>
               (<["localPlan" := LocalPlan_GraphvizString node]> ∅) |} in
  let '(deps, outRefErr) := OutRefs node in
  let buf :=
    foldl (fun buf dep =>
             buf +:+ vizedge_String
                       {| from := ID node; to := To dep;
                          field := Path_String (Path dep) |})
          buf deps in
  let gn :=
    {| name := name gn; color := opColor (LocalPlan_Op node);
       shape := shape gn; style := style gn; kv := kv gn |} in
  let gn :=
    if bool_decide (GetErr node ≠ None ∨ outRefErr ≠ None) then
      let errStr := "" in
      let errStr :=
        match GetErr node with
        | Some e => errStr +:+ "GetErr()=" +:+ e +:+ " "
        | None => errStr
        end in
      let errStr :=
        match outRefErr with
        | Some e => errStr +:+ "OutRefs()=" +:+ e +:+ " "
        | None => errStr
        end in
      {| name := name gn; color := color gn; shape := shape gn;
         style := style gn; kv := <["errors" := errStr]> (kv gn) |}
    else gn in
  buf +:+ viznode_String gn.

(** [Do] returns a .dot representation of the resource graph. *)
Definition Do (g : Graph) : string :=
  let buf := "" in
  let buf := buf +:+ "digraph G {" +:+ nl in
  let buf := buf +:+ "  rankdir=TB" +:+ nl in
  let buf := foldl Do_node buf g in
  let buf := buf +:+ "}" +:+ nl in
  buf.

(** *** The text that [Do] is to produce, statement by statement *)

(** Concatenation of a list of texts. *)
Definition join (l : list string) : string := foldr String.append "" l.

(** One edge statement, labelled with the path of the reference. *)
Definition edge_statement (node : Node) (dep : ResourceRef) : string :=
  "  " +:+ dq +:+ ResourceID_String (ID node) +:+ dq +:+ " -> " +:+
  dq +:+ ResourceID_String (To dep) +:+ dq +:+
  " [label=<" +:+ Path_String (Path dep) +:+ ">]" +:+ nl.

(** The value shown under the key errors, when the node or its references
    have an error. *)
Definition errors_text (node : Node) : option string :=
  match GetErr node, (OutRefs node).2 with
  | None, None => None
  | g, o =>
      Some (match g with Some e => "GetErr()=" +:+ e +:+ " " | None => "" end +:+
            match o with Some e => "OutRefs()=" +:+ e +:+ " " | None => "" end)
  end.

(** The key-value pairs displayed for a node. *)
Definition displayed (node : Node) : gmap string string :=
  let m := <["state" := State node]>
             (<["localPlan" := LocalPlan_GraphvizString node]> ∅) in
  match errors_text node with
  | Some t => <["errors" := t]> m
  | None => m
  end.

Definition displayed_keys (node : Node) : list string :=
  match errors_text node with
  | Some _ => ["errors"; "localPlan"; "state"]
  | None => ["localPlan"; "state"]
  end.

Definition title_row : string :=
  "      <tr><td colspan=" +:+ dq +:+ "2" +:+ dq +:+ "><font point-size=" +:+ dq +:+
  "16" +:+ dq +:+ ">\N</font></td></tr>" +:+ nl.

Definition separator_row : string :=
  "      <tr><td colspan=" +:+ dq +:+ "2" +:+ dq +:+ ">---</td></tr>" +:+ nl.

Definition table_row (k v : string) : string :=
  "      <tr><td>" +:+ k +:+ "</td><td align=" +:+ dq +:+ "left" +:+ dq +:+ ">" +:+
  v +:+ "</td></tr>" +:+ nl.

(** The node statement: an HTML-like table as label, then the attributes. *)
Definition node_block (node : Node) : string :=
  "  " +:+ dq +:+ ResourceID_String (ID node) +:+ dq +:+ " [label=<" +:+ nl +:+
  "    <table border=" +:+ dq +:+ "0" +:+ dq +:+ ">" +:+ nl +:+
  title_row +:+
  separator_row +:+
  join (map (fun k => table_row k (kv_get (displayed node) k))
            (sorted_keys (displayed node))) +:+
  "    </table>" +:+ nl +:+
  "  >,color=" +:+ opColor (LocalPlan_Op node) +:+ ",shape=box,style=filled]" +:+ nl.

(** The attribute list of a node statement: the attributes that are not
    empty, in the order color, shape, style. *)
Definition attributes (n : viznode) : string :=
  join (map (fun a : string * string => "," +:+ a.1 +:+ "=" +:+ a.2)
            (filter (fun a : string * string => a.2 ≠ "")
                    [("color", color n); ("shape", shape n); ("style", style n)])).

(** The text that [Do] appends for the nodes of a graph. *)
Definition nodes_text (g : Graph) : string :=
  join (map (fun node =>
               join (map (edge_statement node) (OutRefs node).1) +:+
               node_block node) g).

End render.
End graphviz.

(** ** A small instance: three flat struct types and a name-matching copier

    The instance is used to run the definitions on concrete resources. *)
Module demo.
Import meta api.

Definition GA_t : GoType :=
  TNamed "GA" (TStruct [("Name", TString); ("NullFields", TSlice TString)]).
Definition Alpha_t : GoType :=
  TNamed "Alpha"
    (TStruct [("Name", TString); ("FeatureFlag", TBool);
              ("NullFields", TSlice TString)]).
Definition Beta_t : GoType :=
  TNamed "Beta" (TStruct [("Name", TString); ("NullFields", TSlice TString)]).

(** A representation type whose [Name] is an integer, and one whose [Name]
    is a defined string type. *)
Definition IntName_t : GoType := TNamed "IntName" (TStruct [("Name", TInt)]).
Definition MyString_t : GoType := TNamed "MyString" TString.
Definition NamedName_t : GoType :=
  TNamed "NamedName" (TStruct [("Name", MyString_t)]).

Fixpoint is_zero (d : Data) : bool :=
  match d with
  | DBool b => negb b
  | DInt z => bool_decide (z = 0%Z)
  | DString s => bool_decide (s = "")
  | DNil => true
  | DPtr _ => false
  | DSlice _ => false
  | DStruct fs => forallb (fun nd => is_zero nd.2) fs
  end.

(** Copy every field of the source that the destination has under the same
    name and type; record a field that the destination lacks when its value
    is not the zero value. *)
Definition copy_field (sfs dfs : list (string * GoType))
  (acc : list (string * Data) * list missingFieldOnCopy) (nd : string * Data)
  : list (string * Data) * list missingFieldOnCopy :=
  let lost :=
    if is_zero nd.2 then []
    else match assoc nd.1 sfs with
         | Some t => [ {| mcPath := [PathField nd.1];
                          mcValue := {| typ := t; data := nd.2 |} |} ]
         | None => []
         end in
  match assoc nd.1 sfs, assoc nd.1 dfs with
  | Some st, Some dt =>
      if GoType_eqb st dt then (assoc_set nd.1 nd.2 acc.1, acc.2)
      else (acc.1, acc.2 ++ lost)
  | _, _ => (acc.1, acc.2 ++ lost)
  end.

Definition flat_copy (opts : list unit) (dest src : Value)
  : Value * list missingFieldOnCopy * option error :=
  match struct_fields (typ src), data src, struct_fields (typ dest), data dest with
  | Some sfs, DStruct sds, Some dfs, DStruct dds =>
      let r := foldl (copy_field sfs dfs) (dds, []) sds in
      ({| typ := typ dest; data := DStruct r.1 |}, r.2, None)
  | _, _, _, _ => (dest, [], Some (errorString "copy: not a struct"))
  end.

(** Field traits: the names of the fields that must stay zero. *)
Definition check_zero (traits : list string) (v : Value) : option error :=
  match data v with
  | DStruct ds =>
      if forallb (fun n => match assoc n ds with
                           | Some d => is_zero d
                           | None => true
                           end) traits
      then None
      else Some (errorString "field must not be set")
  | _ => Some (errorString "check: not a struct")
  end.

(** List the zero-valued fields in [NullFields]; a struct without that
    field is an error. *)
Definition fill_null (traits : list string) (v : Value) : Value * option error :=
  match data v with
  | DStruct ds =>
      match assoc "NullFields" ds with
      | None => (v, Some (errorString "fill: no NullFields"))
      | Some _ =>
          let names :=
            map (fun nd => DString nd.1)
                (filter (fun nd => nd.1 ≠ "NullFields" ∧ is_zero nd.2 = true) ds) in
          ({| typ := typ v; data := DStruct (assoc_set "NullFields" (DSlice names) ds) |},
           None)
      end
  | _ => (v, Some (errorString "fill: not a struct"))
  end.

Definition segment_text (s : PathSegment) : string :=
  match s with
  | PathField n => "." +:+ n
  | PathIndex _ => "[]"
  end.

Definition path_text (p : Path) : string :=
  foldr (fun s acc => segment_text s +:+ acc) "" p.

Definition missing_text (l : list MissingField) : string :=
  "[" +:+ foldr (fun mf acc => path_text (mfPath mf) +:+ " " +:+ acc) "" l +:+ "]".

#[global] Instance pkg : Package (list string) unit := {|
  copier_do := flat_copy;
  checkPostAccess := check_zero;
  fillNullAndForceSend := fill_null;
  Sprint_MissingFields := missing_text
|}.

Definition no_hook (dest src : Value) : Value * option error := (dest, None).
Definition bad_hook (dest src : Value) : Value * option error :=
  (dest, Some (errorString "hook failed")).

(** A trait without custom bridging and without field rules. *)
Definition base : TypeTrait (list string) := {|
  CopyHelperGAtoAlpha := no_hook;
  CopyHelperGAtoBeta := no_hook;
  CopyHelperAlphaToGA := no_hook;
  CopyHelperAlphaToBeta := no_hook;
  CopyHelperBetaToGA := no_hook;
  CopyHelperBetaToAlpha := no_hook;
  TypeTrait_FieldTraits := fun _ => []
|}.

(** A trait whose Alpha-to-GA hook fails. *)
Definition failing : TypeTrait (list string) := {|
  CopyHelperGAtoAlpha := no_hook;
  CopyHelperGAtoBeta := no_hook;
  CopyHelperAlphaToGA := bad_hook;
  CopyHelperAlphaToBeta := no_hook;
  CopyHelperBetaToGA := no_hook;
  CopyHelperBetaToAlpha := no_hook;
  TypeTrait_FieldTraits := fun _ => []
|}.

(** A trait whose Alpha-to-Beta hook fails. *)
Definition failing_beta : TypeTrait (list string) := {|
  CopyHelperGAtoAlpha := no_hook;
  CopyHelperGAtoBeta := no_hook;
  CopyHelperAlphaToGA := no_hook;
  CopyHelperAlphaToBeta := bad_hook;
  CopyHelperBetaToGA := no_hook;
  CopyHelperBetaToAlpha := no_hook;
  TypeTrait_FieldTraits := fun _ => []
|}.

(** A trait that forbids [FeatureFlag] in every version. *)
Definition strict : TypeTrait (list string) := {|
  CopyHelperGAtoAlpha := no_hook;
  CopyHelperGAtoBeta := no_hook;
  CopyHelperAlphaToGA := no_hook;
  CopyHelperAlphaToBeta := no_hook;
  CopyHelperBetaToGA := no_hook;
  CopyHelperBetaToAlpha := no_hook;
  TypeTrait_FieldTraits := fun _ => ["FeatureFlag"]
|}.

Definition foo : cloud.ResourceID :=
  {| cloud.Key := Some {| meta.Name := "foo" |} |}.

(** An identity whose key is nil. *)
Definition keyless : cloud.ResourceID := {| cloud.Key := None |}.

Definition struct_value (t : GoType) (fs : list (string * Data)) : Value :=
  {| typ := t; data := DStruct fs |}.

(** The resource [NewResource[GA, Alpha, Beta](foo, trait)] returns. *)
Definition fresh (trait : TypeTrait (list string)) : resource (list string) unit := {|
  copierOptions := [];
  typeTrait := trait;
  ga := struct_value GA_t [("Name", DString "foo"); ("NullFields", DNil)];
  alpha := struct_value Alpha_t
             [("Name", DString "foo"); ("FeatureFlag", DBool false); ("NullFields", DNil)];
  beta := struct_value Beta_t [("Name", DString "foo"); ("NullFields", DNil)];
  resourceID := Some foo;
  errors := fun _ => {| missingFields := [] |}
|}.

(** The mutation [func(x *Alpha) { x.FeatureFlag = true }]. *)
Definition set_flag (v : Value) : Value :=
  match data v with
  | DStruct ds =>
      {| typ := typ v; data := DStruct (assoc_set "FeatureFlag" (DBool true) ds) |}
  | _ => v
  end.

(** A resource whose table has entries for the two contexts out of GA
    only, so that Alpha and Beta report an error and GA does not. *)
Definition lost_in_ga : missingFieldOnCopy :=
  {| mcPath := [PathField "Legacy"];
     mcValue := {| typ := TBool; data := DBool true |} |}.

Definition stable_only : resource (list string) unit :=
  set_errors
    (fun cc => match cc with
               | GAToAlphaConversion | GAToBetaConversion =>
                   {| missingFields := [lost_in_ga] |}
               | _ => {| missingFields := [] |}
               end)
    (fresh base).

(** A resource whose Beta representation has no [NullFields]. *)
Definition Beta0_t : GoType := TNamed "Beta0" (TStruct [("Name", TString)]).

Definition legacy : resource (list string) unit :=
  set_beta (struct_value Beta0_t [("Name", DString "foo")]) (fresh base).

(** The missing field that the copier reports for a set [FeatureFlag]. *)
Definition lost_flag : missingFieldOnCopy :=
  {| mcPath := [PathField "FeatureFlag"];
     mcValue := {| typ := TBool; data := DBool true |} |}.

(** An Alpha value with another name, as the remote system would return
    it. *)
Definition renamed_alpha : Value :=
  struct_value Alpha_t
    [("Name", DString "bar"); ("FeatureFlag", DBool true); ("NullFields", DNil)].

(** An Alpha value as the remote system would return it. *)
Definition remote_alpha : Value :=
  struct_value Alpha_t
    [("Name", DString "foo"); ("FeatureFlag", DBool true); ("NullFields", DNil)].

(** A value that is not a struct, on which the copier fails. *)
Definition not_a_struct : Value := {| typ := TInt; data := DInt 7 |}.

(** Resources whose GA, or Beta, representation is not a struct. *)
Definition broken_ga : resource (list string) unit := set_ga not_a_struct (fresh base).
Definition broken_beta : resource (list string) unit :=
  set_beta not_a_struct (fresh base).

(** A schema check: the type is a pointer to a struct with a [Name] of
    type string. *)
Definition check_name (t : GoType) : option error :=
  match t with
  | TPtr s =>
      match name_field s with
      | Some TString => None
      | _ => Some (errorString "schema: no Name string")
      end
  | _ => Some (errorString "schema: not a pointer")
  end.

(** A resource whose Alpha and Beta types fail the schema check. *)
Definition unnamed : resource (list string) unit :=
  set_beta (Zero IntName_t) (set_alpha (Zero NamedName_t) (fresh base)).

End demo.

(** * Properties of [resource.go] *)

Section resource_facts.
Import meta api.
Context {FieldTraits copierOption : Type} `{!Package FieldTraits copierOption}.
Local Abbreviation resource := (api.resource FieldTraits copierOption).
Local Abbreviation TypeTrait := (api.TypeTrait FieldTraits).

Lemma ConversionContext_int_range (cc : ConversionContext) :
  (0 ≤ ConversionContext_int cc < conversionContextCount)%Z ∧
  ∀ cc', ConversionContext_int cc = ConversionContext_int cc' → cc = cc'.
Proof. split; [by destruct cc|]. by intros []; destruct cc. Qed.

Lemma load_store (p : Version) (v : Value) (u : resource) :
  load (store p v u) p = v.
Proof. by destruct p. Qed.

Lemma load_store_ne (p q : Version) (v : Value) (u : resource) :
  p ≠ q → load (store p v u) q = load u q.
Proof. by destruct p, q. Qed.

Lemma errors_store (p : Version) (v : Value) (u : resource) :
  errors (store p v u) = errors u.
Proof. by destruct p. Qed.

Lemma typeTrait_store (p : Version) (v : Value) (u : resource) :
  typeTrait (store p v u) = typeTrait u.
Proof. by destruct p. Qed.

Lemma resourceID_store (p : Version) (v : Value) (u : resource) :
  resourceID (store p v u) = resourceID u.
Proof. by destruct p. Qed.

Lemma copierOptions_store (p : Version) (v : Value) (u : resource) :
  copierOptions (store p v u) = copierOptions u.
Proof. by destruct p. Qed.

(** The inner loop of the To*() methods appends one entry per element. *)
Lemma foldl_snoc {A B} (g : A → B) (l : list A) (acc : list B) :
  foldl (fun errs mf => errs ++ [g mf]) acc l = acc ++ map g l.
Proof.
  revert acc. induction l as [|a l IH]; intros acc; simpl.
  - by rewrite app_nil_r.
  - rewrite IH. by rewrite <- app_assoc.
Qed.

Lemma collect_from (ccs : list ConversionContext) (u : resource)
  (acc : list MissingField) :
  foldl (fun errs cc =>
           foldl (fun errs mf =>
                    errs ++ [ {| mfContext := cc; mfPath := mcPath mf;
                                 mfValue := mcValue mf |} ])
                 errs (missingFields (errors u cc)))
        acc ccs
  = acc ++ flat_map (tagged u) ccs.
Proof.
  revert acc. induction ccs as [|cc ccs IH]; intros acc; simpl.
  - by rewrite app_nil_r.
  - rewrite IH, foldl_snoc. unfold tagged. by rewrite <- app_assoc.
Qed.

Lemma collect_flat_map (ccs : list ConversionContext) (u : resource) :
  MissingFields (collect ccs u) = flat_map (tagged u) ccs.
Proof. unfold collect; simpl. apply collect_from. Qed.

Lemma hasErr_nil (e : ConversionError) :
  hasErr e = false ↔ MissingFields e = [].
Proof.
  unfold hasErr. rewrite bool_decide_eq_false.
  destruct (MissingFields e) as [|mf l]; simpl; split; try done; lia.
Qed.

Lemma inbound_eq (v : Version) :
  inbound v =
    match v with
    | VersionGA => [AlphaToGAConversion; BetaToGAConversion]
    | VersionAlpha => [GAToAlphaConversion; BetaToAlphaConversion]
    | VersionBeta => [GAToBetaConversion; AlphaToBetaConversion]
    end.
Proof. by destruct v. Qed.

Lemma outbound_eq (v : Version) :
  outbound v =
    match v with
    | VersionGA => [GAToAlphaConversion; GAToBetaConversion]
    | VersionAlpha => [AlphaToGAConversion; AlphaToBetaConversion]
    | VersionBeta => [BetaToGAConversion; BetaToAlphaConversion]
    end.
Proof. by destruct v. Qed.

Lemma To_unfold (v : Version) (u : resource) :
  To v u =
    (load u v,
     if hasErr (collect (inbound v) u)
     then Some (ConversionErr (collect (inbound v) u)) else None).
Proof.
  rewrite inbound_eq.
  destruct v; simpl; unfold ToGA, ToAlpha, ToBeta; by destruct (hasErr _).
Qed.

(** C2.  Each of ToGA, ToAlpha and ToBeta returns the current value of its
    version; its error is nil exactly when the two contexts that lead into
    the version have no missing field recorded, and otherwise it is the
    ConversionError whose list is the entries of those two contexts, in
    order, each tagged with its context. *)
Theorem To_aggregates_inbound (v : Version) (u : resource) :
  (To v u).1 = load u v ∧
  length (inbound v) = 2%nat ∧
  (∀ cc, cc ∈ inbound v ↔ context_dest cc = v) ∧
  ((To v u).2 = None ↔ flat_map (tagged u) (inbound v) = []) ∧
  (∀ e, (To v u).2 = Some e →
     e = ConversionErr {| MissingFields := flat_map (tagged u) (inbound v) |}) ∧
  (∀ mf, mf ∈ flat_map (tagged u) (inbound v) ↔
     ∃ cc m, context_dest cc = v ∧ m ∈ missingFields (errors u cc) ∧
             mf = {| mfContext := cc; mfPath := mcPath m; mfValue := mcValue m |}).
Proof.
  rewrite To_unfold; simpl.
  pose proof (collect_flat_map (inbound v) u) as Hc.
  destruct (hasErr_nil (collect (inbound v) u)) as [Hn1 Hn2].
  split_and!.
  - done.
  - by destruct v.
  - intros cc. unfold inbound. rewrite list_elem_of_filter.
    split; [by intros [? _]|]. intros Hd. split; [done|].
    destruct cc; unfold all_contexts; set_solver.
  - rewrite <- Hc. destruct (hasErr _) eqn:Hh.
    + split; [done|]. intros Hnil. apply Hn2 in Hnil. congruence.
    + split; [|done]. intros _. by apply Hn1.
  - intros e. destruct (hasErr _); [|done].
    intros [= <-]. f_equal. destruct (collect _ _) as [l]. simpl in *. by subst.
  - intros mf. rewrite list_elem_of_In, in_flat_map. split.
    + intros (cc & Hin & Hmf). exists cc.
      unfold tagged in Hmf. apply in_map_iff in Hmf as (m & <- & Hm).
      exists m. split_and!; [|by apply list_elem_of_In|done].
      apply list_elem_of_In in Hin. unfold inbound in Hin.
      by apply list_elem_of_filter in Hin as [? _].
    + intros (cc & m & Hd & Hm & ->). exists cc. split.
      * apply list_elem_of_In. unfold inbound. apply list_elem_of_filter.
        split; [done|]. destruct cc; unfold all_contexts; set_solver.
      * unfold tagged. apply in_map_iff. exists m.
        split; [done|]. by apply list_elem_of_In.
Qed.

(** C1.  The decision table of ImpliedVersion: GA when the three To*()
    errors are nil; Alpha when only ToAlpha's is nil; Beta when only
    ToBeta's is nil; in every other case, among them the one where only
    ToGA's is nil, an error whose text gives the three errors. *)
Theorem ImpliedVersion_decision_table (u : resource) :
  let gaErr := (ToGA u).2 in
  let alphaErr := (ToAlpha u).2 in
  let betaErr := (ToBeta u).2 in
  (gaErr = None ∧ alphaErr = None ∧ betaErr = None →
   ImpliedVersion u = (VersionGA, None)) ∧
  (gaErr ≠ None ∧ alphaErr = None ∧ betaErr ≠ None →
   ImpliedVersion u = (VersionAlpha, None)) ∧
  (gaErr ≠ None ∧ alphaErr ≠ None ∧ betaErr = None →
   ImpliedVersion u = (VersionBeta, None)) ∧
  (¬ (gaErr = None ∧ alphaErr = None ∧ betaErr = None) →
   ¬ (gaErr ≠ None ∧ alphaErr = None ∧ betaErr ≠ None) →
   ¬ (gaErr ≠ None ∧ alphaErr ≠ None ∧ betaErr = None) →
   (ImpliedVersion u).2 = Some (indeterminant gaErr alphaErr betaErr)) ∧
  (gaErr = None ∧ alphaErr ≠ None ∧ betaErr ≠ None →
   (ImpliedVersion u).2 = Some (indeterminant gaErr alphaErr betaErr)) ∧
  error_Error (indeterminant gaErr alphaErr betaErr) =
    "indeterminant version (ga=" +:+ Sprint_error gaErr +:+
    ", alpha=" +:+ Sprint_error alphaErr +:+
    ", beta=" +:+ Sprint_error betaErr +:+ ")".
Proof.
  unfold ImpliedVersion.
  destruct (ToGA u).2 as [g|], (ToAlpha u).2 as [a|], (ToBeta u).2 as [b|];
    simpl; split_and!; try done; intuition congruence.
Qed.

(** C9.  When ImpliedVersion returns an error, the version it returns with
    it is VersionGA. *)
Theorem ImpliedVersion_error_version (u : resource) :
  (ImpliedVersion u).2 ≠ None → (ImpliedVersion u).1 = VersionGA.
Proof.
  unfold ImpliedVersion.
  by destruct (ToGA u).2, (ToAlpha u).2, (ToBeta u).2.
Qed.

(** *** Propagation *)

Lemma conversions_outbound (s : Version) :
  @conversions FieldTraits copierOption s = (s, map conversion (outbound s)).
Proof. by destruct s. Qed.

(** What one iteration of the loop of [postAccess] does for the conversion
    of context [cc]. *)
Lemma convert_step_conversion (cc : ConversionContext) (u : resource) :
  convert_step (context_src cc) (conversion cc) u =
    let copy := copier_do (copierOptions u) (load u (context_dest cc))
                          (load u (context_src cc)) in
    match copy.2 with
    | Some e => (store (context_dest cc) copy.1.1 u, Some e)
    | None =>
        let h := hook_of (typeTrait u) cc copy.1.1 (load u (context_src cc)) in
        match h.2 with
        | Some e => (store (context_dest cc) h.1 u, Some e)
        | None =>
            (set_errors (<[cc := {| missingFields := copy.1.2 |}]> (errors u))
                        (store (context_dest cc) h.1 u), None)
        end
    end.
Proof.
  destruct cc; unfold convert_step, conversion, call_hook; simpl;
    destruct (copier_do _ _ _) as [[d m] [e|]]; simpl; try done;
    match goal with |- context [?h (typeTrait u) d ?s] =>
      destruct (h (typeTrait u) d s) as [v [e|]] end; done.
Qed.

Lemma postAccess_unfold (s : Version) (flags : Z) (u : resource) :
  postAccess s flags u =
    if bool_decide (Z.land flags postAccessSkipValidation = 0%Z) then
      match checkPostAccess (TypeTrait_FieldTraits (typeTrait u) s) (load u s) with
      | Some err => (u, Some err)
      | None => convert_loop s (map conversion (outbound s)) u
      end
    else convert_loop s (map conversion (outbound s)) u.
Proof. unfold postAccess. by rewrite conversions_outbound. Qed.

Lemma context_dest_src (cc : ConversionContext) : context_dest cc ≠ context_src cc.
Proof. by destruct cc. Qed.

Lemma outbound_src (s : Version) :
  Forall (fun cc => context_src cc = s) (outbound s).
Proof. destruct s; by repeat constructor. Qed.

(** An iteration writes the destination and the slot of its context, and
    nothing else. *)
Lemma convert_step_frame (cc : ConversionContext) (u : resource) :
  let u' := (convert_step (context_src cc) (conversion cc) u).1 in
  (∀ w, w ≠ context_dest cc → load u' w = load u w) ∧
  (∀ c, c ≠ cc → errors u' c = errors u c) ∧
  typeTrait u' = typeTrait u ∧ copierOptions u' = copierOptions u.
Proof.
  rewrite convert_step_conversion; simpl.
  destruct (copier_do _ _ _).2; simpl.
  { split_and!; [|by rewrite errors_store|by destruct cc..].
    intros w Hw. by apply load_store_ne. }
  destruct (hook_of _ _ _ _).2; simpl.
  { split_and!; [|by rewrite errors_store|by destruct cc..].
    intros w Hw. by apply load_store_ne. }
  split_and!; [| |by destruct cc..].
  - intros w Hw. destruct cc, w; done.
  - intros c Hc. by rewrite fn_lookup_insert_ne.
Qed.

Lemma convert_loop_load_src (s : Version) (ccs : list ConversionContext)
  (u : resource) :
  Forall (fun cc => context_src cc = s) ccs →
  load (convert_loop s (map conversion ccs) u).1 s = load u s.
Proof.
  intros Hs. revert u. induction Hs as [|cc ccs <- _ IH]; intros u; [done|].
  simpl. pose proof (convert_step_frame cc u) as (Hl & _).
  destruct (convert_step _ _ u) as [u' [e|]]; simpl in *.
  - apply Hl. by apply not_eq_sym, context_dest_src.
  - rewrite IH. apply Hl. by apply not_eq_sym, context_dest_src.
Qed.

Lemma postAccess_load_src (s : Version) (flags : Z) (u : resource) :
  load (postAccess s flags u).1 s = load u s.
Proof.
  rewrite postAccess_unfold.
  pose proof (convert_loop_load_src s (outbound s) u (outbound_src s)).
  repeat case_match; done.
Qed.

Lemma postAccess_validation_error (s : Version) (u : resource) (e : error) :
  checkPostAccess (TypeTrait_FieldTraits (typeTrait u) s) (load u s) = Some e →
  postAccess s 0 u = (u, Some e).
Proof. intros Hc. rewrite postAccess_unfold. simpl. by rewrite Hc. Qed.

Lemma AccessOf_unfold (v : Version) (f : Value → Value) (u : resource) :
  AccessOf v f u = postAccess v 0 (store v (f (load u v)) u).
Proof. by destruct v. Qed.

(** C3.  When the validation of the mutated source version fails in Access,
    AccessAlpha or AccessBeta, the call returns that error, the two other
    representations are the ones from before the call and so is the whole
    error table. *)
Theorem Access_validation_error (v : Version) (f : Value → Value)
  (u : resource) (e : error) :
  checkPostAccess (TypeTrait_FieldTraits (typeTrait u) v) (f (load u v)) = Some e →
  (AccessOf v f u).2 = Some e ∧
  (∀ w, w ≠ v → load (AccessOf v f u).1 w = load u w) ∧
  (∀ cc, errors (AccessOf v f u).1 cc = errors u cc).
Proof.
  intros Hc. rewrite AccessOf_unfold.
  rewrite (postAccess_validation_error v (store v (f (load u v)) u) e).
  - simpl. split_and!; [done| |].
    + intros w Hw. by apply load_store_ne.
    + intros cc. by rewrite errors_store.
  - by rewrite typeTrait_store, load_store.
Qed.

(** C10.  Access, AccessAlpha and AccessBeta run the propagation on the
    resource in which fn has already been applied to the source version,
    and whatever the propagation returns, an error included, the source
    version is left as fn made it. *)
Theorem Access_keeps_mutation (v : Version) (f : Value → Value) (u : resource) :
  AccessOf v f u = postAccess v 0 (store v (f (load u v)) u) ∧
  load (AccessOf v f u).1 v = f (load u v) ∧
  (∀ e, (AccessOf v f u).2 = Some e → load (AccessOf v f u).1 v = f (load u v)).
Proof.
  assert (load (AccessOf v f u).1 v = f (load u v)) as Hl.
  { rewrite AccessOf_unfold, postAccess_load_src. apply load_store. }
  split_and!; [apply AccessOf_unfold|done|done].
Qed.

(** The loop of [postAccess] over the two contexts out of a version, in
    terms of the resource it starts from. *)
Lemma convert_loop_outbound (s : Version) (u : resource)
  (c1 c2 : ConversionContext) :
  outbound s = [c1; c2] →
  let copy cc :=
    copier_do (copierOptions u) (load u (context_dest cc)) (load u s) in
  let hook cc := hook_of (typeTrait u) cc (copy cc).1.1 (load u s) in
  let table1 := <[c1 := {| missingFields := (copy c1).1.2 |}]> (errors u) in
  convert_loop s (map conversion (outbound s)) u =
    match (copy c1).2 with
    | Some e => (store (context_dest c1) (copy c1).1.1 u, Some e)
    | None =>
        match (hook c1).2 with
        | Some e => (store (context_dest c1) (hook c1).1 u, Some e)
        | None =>
            let u1 := set_errors table1 (store (context_dest c1) (hook c1).1 u) in
            match (copy c2).2 with
            | Some e => (store (context_dest c2) (copy c2).1.1 u1, Some e)
            | None =>
                match (hook c2).2 with
                | Some e => (store (context_dest c2) (hook c2).1 u1, Some e)
                | None =>
                    (set_errors
                       (<[c2 := {| missingFields := (copy c2).1.2 |}]> table1)
                       (store (context_dest c2) (hook c2).1 u1), None)
                end
            end
        end
    end.
Proof.
  intros Ho. rewrite Ho. rewrite outbound_eq in Ho.
  destruct s; simplify_eq; simpl.
  all: match goal with |- context [convert_step ?s (conversion ?c) ?u0] =>
         change (convert_step s (conversion c) u0)
           with (convert_step (context_src c) (conversion c) u0);
         rewrite (convert_step_conversion c u0) end; simpl.
  all: destruct (copier_do _ _ _).2; simpl; [done|].
  all: match goal with |- context [(?h (typeTrait ?u0) ?d ?s).2] =>
         destruct (h (typeTrait u0) d s).2 end; simpl; [done|].
  all: match goal with |- context [convert_step ?s (conversion ?c) ?u1] =>
         change (convert_step s (conversion c) u1)
           with (convert_step (context_src c) (conversion c) u1);
         rewrite (convert_step_conversion c u1) end; simpl.
  all: destruct (copier_do _ _ _).2; simpl; [done|].
  all: match goal with |- context [(?h (typeTrait ?u0) ?d ?s).2] =>
         destruct (h (typeTrait u0) d s).2 end; done.
Qed.

Lemma outbound_pair (s : Version) (c1 c2 : ConversionContext) :
  outbound s = [c1; c2] →
  c1 ≠ c2 ∧ context_dest c1 ≠ context_dest c2 ∧
  context_dest c1 ≠ s ∧ context_dest c2 ≠ s.
Proof. rewrite outbound_eq. by destruct s; intros; simplify_eq. Qed.

Lemma load_set_errors (t : ConversionContext → conversionErrors)
  (u : resource) (w : Version) :
  load (set_errors t u) w = load u w.
Proof. by destruct w. Qed.

(** C4, as the code has it.  In a propagation whose validation passes or
    is skipped: when the hook of the first destination fails, the call
    returns its error, the first destination holds what copy and hook left,
    the second destination is untouched and no slot of the error table
    changes, the slot of the first destination included; when the first
    destination completes and the hook of the second fails, the call
    returns that error, the first destination keeps its value and the slot
    of its context holds the list of its copy, the second destination holds
    what copy and hook left, and its slot and all others are unchanged. *)
Theorem postAccess_hook_error (s : Version) (flags : Z) (u : resource)
  (c1 c2 : ConversionContext) (e : error) :
  outbound s = [c1; c2] →
  (Z.land flags postAccessSkipValidation ≠ 0%Z ∨
   checkPostAccess (TypeTrait_FieldTraits (typeTrait u) s) (load u s) = None) →
  let copy cc :=
    copier_do (copierOptions u) (load u (context_dest cc)) (load u s) in
  let hook cc := hook_of (typeTrait u) cc (copy cc).1.1 (load u s) in
  let r := postAccess s flags u in
  ((copy c1).2 = None → (hook c1).2 = Some e →
   r.2 = Some e ∧
   load r.1 (context_dest c1) = (hook c1).1 ∧
   load r.1 (context_dest c2) = load u (context_dest c2) ∧
   (∀ cc, errors r.1 cc = errors u cc)) ∧
  ((copy c1).2 = None → (hook c1).2 = None →
   (copy c2).2 = None → (hook c2).2 = Some e →
   r.2 = Some e ∧
   load r.1 (context_dest c1) = (hook c1).1 ∧
   errors r.1 c1 = {| missingFields := (copy c1).1.2 |} ∧
   load r.1 (context_dest c2) = (hook c2).1 ∧
   (∀ cc, cc ≠ c1 → errors r.1 cc = errors u cc)).
Proof.
  intros Ho Hv; simpl.
  destruct (outbound_pair s c1 c2 Ho) as (Hc & Hd & _ & _).
  assert (postAccess s flags u = convert_loop s (map conversion (outbound s)) u)
    as ->.
  { rewrite postAccess_unfold. case_bool_decide; [|done].
    destruct Hv as [?| ->]; done. }
  rewrite (convert_loop_outbound s u c1 c2 Ho); simpl.
  split.
  - intros -> ->; simpl. split_and!; [done|apply load_store| |].
    + by apply load_store_ne.
    + intros cc. by rewrite errors_store.
  - intros -> -> -> ->; simpl. split_and!; [done| | |apply load_store|].
    + rewrite load_store_ne, load_set_errors by done. apply load_store.
    + rewrite errors_store; simpl. apply fn_lookup_insert.
    + intros cc Hcc. rewrite errors_store; simpl.
      by rewrite fn_lookup_insert_ne.
Qed.

(** *** Set *)

Lemma SetOf_unfold (p : Version) (src : Value) (u : resource) :
  SetOf p src u =
    let copy0 := copier_do (copierOptions u) (load u p) src in
    match copy0.2 with
    | Some e => (store p copy0.1.1 u, Some e)
    | None => convert_loop p (map conversion (outbound p)) (store p copy0.1.1 u)
    end.
Proof.
  destruct p; simpl; unfold Set_, SetAlpha, SetBeta; simpl;
    destruct (copier_do _ _ _) as [[d m] [e|]]; simpl; try done;
    by rewrite postAccess_unfold.
Qed.

Lemma SetOf_any_check (check : FieldTraits → Value → option error)
  (p : Version) (src : Value) (u : resource) :
  @SetOf _ _ (with_checkPostAccess _ check) p src u = SetOf p src u.
Proof. by destruct p. Qed.

(** Read a field or a slot of a resource built by stores. *)
Ltac simpl_stores :=
  repeat first
    [ rewrite load_set_errors
    | rewrite load_store
    | rewrite load_store_ne by done
    | rewrite errors_store
    | rewrite typeTrait_store
    | rewrite resourceID_store
    | rewrite copierOptions_store
    | rewrite fn_lookup_insert
    | rewrite fn_lookup_insert_ne by done
    | progress simpl ].

(** Close one conjunct of a description of a propagation path. *)
Ltac close_path :=
  first
    [ done
    | by (intros; simplify_eq; split_and?; simpl_stores)
    | by (split; [|intros (? & ? & ? & ?)]) ].

(** C6.  Set, SetAlpha and SetBeta, with s the value that the structural
    copier leaves in the named version from src, c1 and c2 the two contexts
    out of that version, copy the copier run from s into a destination and
    hook the bridging hook of the context run on the copied destination and
    s.  The named version holds s; the result is the same whatever the
    post-access validation would answer; the trait, the options, the
    identity and the four other slots are unchanged.  When the copier fails
    on src nothing else is written.  Otherwise the propagation runs copy,
    hook and recording for c1 and then for c2: it returns nil exactly when
    the two copies and the two hooks do, each destination then holds what
    its hook left and each slot the list of its copy; and at the first
    failing step it returns that error, with the destinations and slots
    written up to that step. *)
Theorem Set_copies_and_skips_validation (p : Version) (src : Value)
  (u : resource) (c1 c2 : ConversionContext) :
  outbound p = [c1; c2] →
  let copy0 := copier_do (copierOptions u) (load u p) src in
  let s := copy0.1.1 in
  let copy cc := copier_do (copierOptions u) (load u (context_dest cc)) s in
  let hook cc := hook_of (typeTrait u) cc (copy cc).1.1 s in
  let d1 := context_dest c1 in
  let d2 := context_dest c2 in
  let list1 := {| missingFields := (copy c1).1.2 |} in
  let list2 := {| missingFields := (copy c2).1.2 |} in
  let r := SetOf p src u in
  load r.1 p = s ∧
  (∀ check, @SetOf _ _ (with_checkPostAccess _ check) p src u = r) ∧
  (typeTrait r.1 = typeTrait u ∧ copierOptions r.1 = copierOptions u ∧
   resourceID r.1 = resourceID u ∧
   ∀ cc, cc ≠ c1 → cc ≠ c2 → errors r.1 cc = errors u cc) ∧
  (∀ e, copy0.2 = Some e →
     r.2 = Some e ∧ load r.1 d1 = load u d1 ∧ load r.1 d2 = load u d2 ∧
     errors r.1 c1 = errors u c1 ∧ errors r.1 c2 = errors u c2) ∧
  (copy0.2 = None →
   (r.2 = None ↔
    (copy c1).2 = None ∧ (hook c1).2 = None ∧
    (copy c2).2 = None ∧ (hook c2).2 = None) ∧
   (r.2 = None →
    load r.1 d1 = (hook c1).1 ∧ load r.1 d2 = (hook c2).1 ∧
    errors r.1 c1 = list1 ∧ errors r.1 c2 = list2) ∧
   (∀ e, (copy c1).2 = Some e →
      r.2 = Some e ∧ load r.1 d1 = (copy c1).1.1 ∧ load r.1 d2 = load u d2 ∧
      errors r.1 c1 = errors u c1 ∧ errors r.1 c2 = errors u c2) ∧
   (∀ e, (copy c1).2 = None → (hook c1).2 = Some e →
      r.2 = Some e ∧ load r.1 d1 = (hook c1).1 ∧ load r.1 d2 = load u d2 ∧
      errors r.1 c1 = errors u c1 ∧ errors r.1 c2 = errors u c2) ∧
   (∀ e, (copy c1).2 = None → (hook c1).2 = None → (copy c2).2 = Some e →
      r.2 = Some e ∧ load r.1 d1 = (hook c1).1 ∧ errors r.1 c1 = list1 ∧
      load r.1 d2 = (copy c2).1.1 ∧ errors r.1 c2 = errors u c2) ∧
   (∀ e, (copy c1).2 = None → (hook c1).2 = None →
      (copy c2).2 = None → (hook c2).2 = Some e →
      r.2 = Some e ∧ load r.1 d1 = (hook c1).1 ∧ errors r.1 c1 = list1 ∧
      load r.1 d2 = (hook c2).1 ∧ errors r.1 c2 = errors u c2)).
Proof.
  intros Ho. cbv zeta.
  destruct (outbound_pair p c1 c2 Ho) as (Hc & Hd & Hp1 & Hp2).
  assert (c2 ≠ c1) as Hc' by (by apply not_eq_sym).
  assert (context_dest c2 ≠ context_dest c1) as Hd' by (by apply not_eq_sym).
  split; [|split; [intros check; apply SetOf_any_check|]].
  { rewrite SetOf_unfold; simpl. destruct (copier_do _ _ _).2; simpl.
    - apply load_store.
    - rewrite convert_loop_load_src by apply outbound_src. apply load_store. }
  rewrite SetOf_unfold. cbv zeta.
  destruct (copier_do (copierOptions u) (load u p) src).2 as [e0|] eqn:E0.
  { split_and!; close_path. }
  rewrite (convert_loop_outbound p _ c1 c2 Ho). cbv zeta.
  rewrite !copierOptions_store, !typeTrait_store, !load_store.
  rewrite !(load_store_ne p) by done.
  destruct (copier_do _ (load u (context_dest c1)) _).2 as [e1|] eqn:E1;
    [split_and!; try close_path; intros _; split_and!; close_path|].
  destruct (hook_of _ c1 _ _).2 as [e2|] eqn:E2;
    [split_and!; try close_path; intros _; split_and!; close_path|].
  destruct (copier_do _ (load u (context_dest c2)) _).2 as [e3|] eqn:E3;
    [split_and!; try close_path; intros _; split_and!; close_path|].
  destruct (hook_of _ c2 _ _).2 as [e4|] eqn:E4;
    split_and!; try close_path; intros _; split_and!; close_path.
Qed.

(** *** Freeze *)

Lemma Version_cases (P : Version → Prop) :
  (∃ v, P v) ↔ P VersionGA ∨ P VersionAlpha ∨ P VersionBeta.
Proof.
  split; [intros [[] ?]; auto|].
  intros [?|[?|?]]; eauto.
Qed.

(** C5, as the code has it.  Freeze fails exactly when ImpliedVersion
    fails or the fill step fails on one of the two versions that are not
    the implied one, and it returns a frozen resource exactly when it does
    not fail.  When it succeeds, the frozen resource carries the implied
    version and the resource as Freeze left it; the implied version's
    representation is the one from before, each of the two others is what
    the fill step made of it under the field traits of that version, and
    the error table is unchanged. *)
Theorem Freeze_fills_noncanonical (u : resource) :
  let canon := (ImpliedVersion u).1 in
  let filled v :=
    fillNullAndForceSend (TypeTrait_FieldTraits (typeTrait u) v) (load u v) in
  let r := Freeze u in
  (r.2.2 ≠ None ↔
   (ImpliedVersion u).2 ≠ None ∨ ∃ v, v ≠ canon ∧ (filled v).2 ≠ None) ∧
  (r.2.1 = None ↔ r.2.2 ≠ None) ∧
  (∀ fr, r.2.1 = Some fr →
     ver fr = canon ∧ x fr = r.1 ∧
     load r.1 canon = load u canon ∧
     (∀ v, v ≠ canon → load r.1 v = (filled v).1) ∧
     (∀ cc, errors r.1 cc = errors u cc)).
Proof.
  simpl. unfold Freeze.
  destruct (ImpliedVersion u) as [canon [err|]]; simpl.
  { split_and!; [|done|done]. split; [by left|done]. }
  rewrite Version_cases.
  destruct canon; simpl; unfold fill; simpl;
    repeat match goal with
      | |- context [fillNullAndForceSend ?t ?v] =>
          let d := fresh "d" in let e := fresh "e" in
          destruct (fillNullAndForceSend t v) as [d [e|]] eqn:?; simpl
      end;
    (split_and!;
     [ split; [try done; intros _; right; naive_solver | try done; naive_solver]
     | done
     | try done; intros fr [= <-]; simpl; split_and!; try done;
       intros v Hv; destruct v; simpl; try done;
       match goal with H : ?a = (_, _) |- context [?a] => by rewrite H end ]).
Qed.

(** *** NewResource *)

Lemma zero_data_struct (t : GoType) (fs : list (string * GoType)) :
  struct_fields t = Some fs →
  zero_data t = DStruct (map (fun nt => (nt.1, zero_data nt.2)) fs).
Proof.
  induction t; simpl; intros Hfs; try done.
  - by apply IHt.
  - by simplify_eq.
Qed.

Lemma assoc_map {A B} (g : A → B) (name : string) (fs : list (string * A)) :
  assoc name (map (fun na => (na.1, g na.2)) fs) = g <$> assoc name fs.
Proof.
  induction fs as [|[n a] fs IH]; simpl; [done|]. by case_decide.
Qed.

Lemma assoc_assoc_set {A} (name : string) (a : A) (fs : list (string * A)) :
  is_Some (assoc name fs) → assoc name (assoc_set name a fs) = Some a.
Proof.
  induction fs as [|[n b] fs IH]; simpl; intros [c Hc]; [done|].
  case_decide; simpl; case_decide; try done. apply IH. eauto.
Qed.

Lemma assignable_string (ft : GoType) :
  assignable TString ft = true → ft = TString.
Proof. by destruct ft. Qed.

Lemma setName_Zero_wrong_kind (id : option cloud.ResourceID) (t : GoType) :
  wrong_kind_name t → setName id (Zero t) = Returned (Zero t).
Proof.
  intros (ft & Hn & Hk). unfold setName, Type_FieldByName, name_field in *.
  simpl. destruct (struct_fields t); [|done]. simpl. rewrite Hn.
  by rewrite bool_decide_eq_true_2.
Qed.

(** [setName] on the zero value of a type: where it returns and what it
    returns. *)
Lemma setName_Zero_cases (id : option cloud.ResourceID) (t : GoType) :
  match setName id (Zero t) with
  | Returned v =>
      setName_returns id t ∧ typ v = t ∧
      (name_field t = None → v = Zero t) ∧
      (name_field t = Some TString →
       ∃ name, Key_Name id = Some name ∧
               Value_FieldByName v "Name" = Some (ValueOf_string name))
  | Panicked _ => ¬ setName_returns id t
  end.
Proof.
  unfold setName, Type_FieldByName. simpl.
  destruct (struct_fields t) as [fs|] eqn:Hfs.
  2:{ intros [[? Hs] _]. congruence. }
  assert (name_field t = assoc "Name" fs) as Hnf.
  { unfold name_field. by rewrite Hfs. }
  assert (is_Some (struct_fields t)) as Hst by (rewrite Hfs; by eexists).
  rewrite Hnf. simpl.
  destruct (assoc "Name" fs) as [ft|] eqn:Hft.
  2:{ split; [|done]. split; [done|]. rewrite Hnf. by intros ft. }
  case_bool_decide as Hk.
  { split; [|split; [done|split; [done|]]].
    - split; [done|]. rewrite Hnf. by intros ft' [= <-] Hk'.
    - intros [= ->]. by destruct Hk. }
  assert (kind ft = KString) as Hk'.
  { destruct (decide (kind ft = KString)); [done|by destruct Hk]. }
  assert (Value_FieldByName (Zero t) "Name" =
            Some {| typ := ft; data := zero_data ft |}) as Hf.
  { unfold Value_FieldByName; simpl.
    by rewrite Hfs, (zero_data_struct t fs Hfs), assoc_map, Hft. }
  rewrite Hf. destruct (Key_Name id) as [name|] eqn:Hid.
  2:{ intros [_ H]. rewrite Hnf in H.
      destruct (H ft eq_refl Hk') as [_ [? ?]]. congruence. }
  unfold Value_SetField. rewrite Hf. simpl.
  destruct (assignable TString ft) eqn:Ha.
  2:{ intros [_ H]. rewrite Hnf in H.
      destruct (H ft eq_refl Hk') as [-> _]. by simpl in Ha. }
  apply assignable_string in Ha as ->.
  rewrite (zero_data_struct t fs Hfs).
  split; [|split; [done|split; [done|]]].
  - split; [done|]. rewrite Hnf. intros ft' [= <-] _. split; [done|by eexists].
  - intros _. exists name. split; [done|].
    unfold Value_FieldByName; simpl. rewrite Hfs, Hft.
    rewrite assoc_assoc_set; [done|]. rewrite assoc_map, Hft. by eexists.
Qed.

Lemma setName_Zero_iff (id : option cloud.ResourceID) (t : GoType) :
  (∃ v, setName id (Zero t) = Returned v) ↔ setName_returns id t.
Proof.
  pose proof (setName_Zero_cases id t) as H.
  destruct (setName id (Zero t)) as [v|p].
  - split; [by intros _; apply H|by eexists].
  - split; [by intros [? ?]|done].
Qed.

(** [NewResource] returns when [setName] returns on the three zero
    values, and then each representation is what [setName] returned. *)
Lemma NewResource_Returned (Base : TypeTrait) (GA Alpha Beta : GoType)
  (id : option cloud.ResourceID) (tt : option TypeTrait) (obj : resource) :
  NewResource Base GA Alpha Beta id tt = Returned obj ↔
  ∃ vg va vb,
    setName id (Zero GA) = Returned vg ∧
    setName id (Zero Alpha) = Returned va ∧
    setName id (Zero Beta) = Returned vb ∧
    obj = {| copierOptions := []; typeTrait := default Base tt;
             ga := vg; alpha := va; beta := vb; resourceID := id;
             errors := fun _ => {| missingFields := [] |} |}.
Proof.
  unfold NewResource. simpl.
  destruct (setName id (Zero GA)) as [vg|] eqn:Eg; simpl.
  2:{ split; [done|]. by intros (? & ? & ? & ? & _). }
  destruct (setName id (Zero Alpha)) as [va|] eqn:Ea; simpl.
  2:{ split; [done|]. by intros (? & ? & ? & _ & ? & _). }
  destruct (setName id (Zero Beta)) as [vb|] eqn:Eb; simpl.
  2:{ split; [done|]. by intros (? & ? & ? & _ & _ & ? & _). }
  split.
  - intros [= <-]. exists vg, va, vb. by split_and!.
  - by intros (? & ? & ? & [= <-] & [= <-] & [= <-] & ->).
Qed.

(** C7, as the code has it.  NewResource has one result, the resource,
    and no error result.  For a representation whose type declares a Name
    field of a kind other than string, setName returns the zero value as it
    is, whatever the identity; so whenever NewResource returns, that
    representation is at its zero value, without the name of the identity.
    NewResource returns exactly when setName returns on the two other
    types, and it returns on three types that all declare such a Name. *)
Theorem NewResource_wrong_kind_unseeded (Base : TypeTrait)
  (GA Alpha Beta : GoType) (id : option cloud.ResourceID)
  (tt : option TypeTrait) (v : Version) :
  wrong_kind_name (rep_type GA Alpha Beta v) →
  setName id (Zero (rep_type GA Alpha Beta v)) =
    Returned (Zero (rep_type GA Alpha Beta v)) ∧
  (∀ obj : resource,
     NewResource Base GA Alpha Beta id tt = Returned obj →
     load obj v = Zero (rep_type GA Alpha Beta v)) ∧
  ((∃ obj : resource, NewResource Base GA Alpha Beta id tt = Returned obj) ↔
   ∀ w, w ≠ v → setName_returns id (rep_type GA Alpha Beta w)) ∧
  ((∀ w, wrong_kind_name (rep_type GA Alpha Beta w)) →
   ∃ obj : resource,
     NewResource Base GA Alpha Beta id tt = Returned obj ∧
     ∀ w, load obj w = Zero (rep_type GA Alpha Beta w)).
Proof.
  intros Hw.
  pose proof (setName_Zero_wrong_kind id _ Hw) as Hv.
  split_and!.
  - done.
  - intros obj Ho. apply NewResource_Returned in Ho
      as (vg & va & vb & Eg & Ea & Eb & ->).
    destruct v; simpl in *; congruence.
  - split.
    + intros [obj Ho] w _. apply setName_Zero_iff.
      apply NewResource_Returned in Ho as (vg & va & vb & Eg & Ea & Eb & _).
      destruct w; simpl; by eexists.
    + intros Hall.
      assert (∀ w, ∃ x, setName id (Zero (rep_type GA Alpha Beta w)) = Returned x)
        as Hr.
      { intros w. destruct (decide (w = v)) as [->|Hne]; [by eexists|].
        by apply setName_Zero_iff, Hall. }
      destruct (Hr VersionGA) as [vg Eg], (Hr VersionAlpha) as [va Ea],
        (Hr VersionBeta) as [vb Eb]. simpl in *.
      eexists. apply NewResource_Returned. by exists vg, va, vb.
  - intros Hall.
    pose proof (setName_Zero_wrong_kind id _ (Hall VersionGA)) as Eg.
    pose proof (setName_Zero_wrong_kind id _ (Hall VersionAlpha)) as Ea.
    pose proof (setName_Zero_wrong_kind id _ (Hall VersionBeta)) as Eb.
    simpl in *. eexists. split.
    + apply NewResource_Returned. eexists _, _, _. by split_and!.
    + by intros [].
Qed.

End resource_facts.

(** * The properties on concrete resources *)

Section on_demo.
Import meta api demo.

(** The scenario of a flag that only Alpha has: set through AccessAlpha,
    it is reported missing by ToGA and ToBeta, Alpha is the implied version
    and Freeze succeeds with it. *)
Example alpha_only_flag :
  let r := AccessAlpha set_flag (fresh base) in
  r.2 = None ∧
  (ToGA r.1).2 =
    Some (ConversionErr
            {| MissingFields :=
                 [ {| mfContext := AlphaToGAConversion;
                      mfPath := [PathField "FeatureFlag"];
                      mfValue := {| typ := TBool; data := DBool true |} |} ] |}) ∧
  (ToAlpha r.1).2 = None ∧
  ImpliedVersion r.1 = (VersionAlpha, None) ∧
  ver <$> (Freeze r.1).2.1 = Some VersionAlpha.
Proof. vm_compute. done. Qed.

(** The To*() methods on a resource whose table has entries out of GA. *)
Example To_on_stable_only :
  (To VersionAlpha stable_only).2 =
    Some (ConversionErr
            {| MissingFields :=
                 [ {| mfContext := GAToAlphaConversion;
                      mfPath := [PathField "Legacy"];
                      mfValue := {| typ := TBool; data := DBool true |} |} ] |}) ∧
  (To VersionGA stable_only).2 = None.
Proof. by vm_compute. Qed.

(** A failed propagation leaves the flag that fn set in Alpha. *)
Example Access_error_keeps_flag :
  let r := AccessAlpha set_flag (fresh failing) in
  r.2 = Some (errorString "hook failed") ∧
  Value_FieldByName (alpha r.1) "FeatureFlag" =
    Some {| typ := TBool; data := DBool true |}.
Proof. by vm_compute. Qed.

(** A Name of a defined string type makes the assignment abort. *)
Example NewResource_named_string_aborts :
  NewResource (copierOption:=unit) base NamedName_t Alpha_t Beta_t (Some foo) None =
    Panicked (PanicNotAssignable TString MyString_t).
Proof. reflexivity. Qed.

(** A nil identity, or a nil key, makes the read of the name abort when a
    Name of type string is to be assigned, and only then. *)
Example NewResource_nil_identity :
  NewResource (copierOption:=unit) base GA_t Alpha_t Beta_t None None =
    Panicked PanicNilDereference ∧
  NewResource (copierOption:=unit) base GA_t Alpha_t Beta_t (Some keyless) None =
    Panicked PanicNilDereference ∧
  ∃ obj : resource (list string) unit,
    NewResource base IntName_t IntName_t IntName_t None None = Returned obj.
Proof. split_and!; [reflexivity..|by eexists]. Qed.

(** The table on a resource where only GA is free of errors. *)
Lemma ImpliedVersion_decision_table_witness :
  (ToGA stable_only).2 = None ∧
  (ToAlpha stable_only).2 ≠ None ∧
  (ToBeta stable_only).2 ≠ None ∧
  (ImpliedVersion stable_only).2 =
    Some (indeterminant (ToGA stable_only).2 (ToAlpha stable_only).2
                        (ToBeta stable_only).2).
Proof.
  pose proof (ImpliedVersion_decision_table stable_only) as (_ & _ & _ & _ & H & _).
  assert ((ToGA stable_only).2 = None ∧ (ToAlpha stable_only).2 ≠ None ∧
          (ToBeta stable_only).2 ≠ None) as Hs by (vm_compute; done).
  destruct Hs as (Hg & Ha & Hb). split_and!; [done..|]. apply H. done.
Defined.

(** The version returned with the error, on the same resource. *)
Lemma ImpliedVersion_error_version_witness :
  (ImpliedVersion stable_only).2 ≠ None ∧
  (ImpliedVersion stable_only).1 = VersionGA.
Proof.
  assert ((ImpliedVersion stable_only).2 ≠ None) as H by (vm_compute; done).
  split; [done|]. apply (ImpliedVersion_error_version stable_only H).
Defined.

(** AccessAlpha sets a flag that the trait forbids. *)
Lemma Access_validation_error_witness :
  let u := fresh strict in
  let r := AccessAlpha set_flag u in
  r.2 = Some (errorString "field must not be set") ∧
  ga r.1 = ga u ∧ beta r.1 = beta u ∧
  (∀ cc, errors r.1 cc = errors u cc).
Proof.
  simpl.
  destruct (Access_validation_error VersionAlpha set_flag (fresh strict)
              (errorString "field must not be set"))
    as (He & Hl & Ht); [by vm_compute|].
  split_and!; [done| | |done].
  - by apply (Hl VersionGA).
  - by apply (Hl VersionBeta).
Defined.

(** C4, the claim as stated, fails.  AccessAlpha sets the flag on a
    resource whose Alpha-to-GA hook fails: the copy into GA completed and
    reported the flag as missing, the call returned the hook's error, and
    the slot of Alpha-to-GA in the error table is still empty, so the
    destination that completed the copy did not keep its list there. *)
Lemma hook_error_drops_missing_list :
  let u := set_alpha (set_flag (alpha (fresh failing))) (fresh failing) in
  let copy := copier_do (copierOptions u) (ga u) (alpha u) in
  let r := AccessAlpha set_flag (fresh failing) in
  checkPostAccess (TypeTrait_FieldTraits (typeTrait u) VersionAlpha) (alpha u) = None ∧
  copy.2 = None ∧
  copy.1.2 = [lost_flag] ∧
  r.2 = Some (errorString "hook failed") ∧
  missingFields (errors r.1 AlphaToGAConversion) = [] ∧
  missingFields (errors r.1 AlphaToGAConversion) ≠ copy.1.2.
Proof. vm_compute. split_and!; done. Qed.

(** The propagation from Alpha with a failing hook, into GA first and
    into Beta second. *)
Lemma postAccess_hook_error_witness :
  (let u := set_alpha (set_flag (alpha (fresh failing))) (fresh failing) in
   let r := postAccess VersionAlpha 0 u in
   r.2 = Some (errorString "hook failed") ∧
   ga r.1 = ga u ∧ beta r.1 = beta u ∧
   (∀ cc, errors r.1 cc = errors u cc)) ∧
  (let u := set_alpha (set_flag (alpha (fresh failing_beta))) (fresh failing_beta) in
   let r := postAccess VersionAlpha 0 u in
   r.2 = Some (errorString "hook failed") ∧
   errors r.1 AlphaToGAConversion = {| missingFields := [lost_flag] |} ∧
   errors r.1 AlphaToBetaConversion = {| missingFields := [] |}).
Proof.
  split; simpl.
  - destruct (postAccess_hook_error VersionAlpha 0
                (set_alpha (set_flag (alpha (fresh failing))) (fresh failing))
                AlphaToGAConversion AlphaToBetaConversion
                (errorString "hook failed"))
      as [H _]; [reflexivity|right; reflexivity|].
    destruct H as (He & Hg & Hb & Ht); [reflexivity..|].
    split_and!; [exact He| |exact Hb|exact Ht].
    etrans; [exact Hg|reflexivity].
  - destruct (postAccess_hook_error VersionAlpha 0
                (set_alpha (set_flag (alpha (fresh failing_beta))) (fresh failing_beta))
                AlphaToGAConversion AlphaToBetaConversion
                (errorString "hook failed"))
      as [_ H]; [reflexivity|right; reflexivity|].
    destruct H as (He & Hg & H1 & Hb & Ht); [reflexivity..|].
    split_and!; [exact He|exact H1|].
    etrans; [apply (Ht AlphaToBetaConversion); discriminate|reflexivity].
Defined.

(** C5, the claim as stated, fails.  On a resource whose table is empty
    ImpliedVersion succeeds with GA, and Freeze fails all the same, with
    the error of the fill step on Beta, after Alpha has been filled. *)
Lemma Freeze_fails_without_ImpliedVersion_error :
  ImpliedVersion legacy = (VersionGA, None) ∧
  (Freeze legacy).2 = (None, Some (errorString "fill: no NullFields")) ∧
  alpha (Freeze legacy).1 ≠ alpha legacy ∧
  ¬ ((Freeze legacy).2.2 ≠ None ↔ (ImpliedVersion legacy).2 ≠ None).
Proof.
  vm_compute. split_and!; [done|done|discriminate|].
  intros [H _]. by apply H.
Qed.

(** Freeze after the flag was set through AccessAlpha. *)
Lemma Freeze_fills_noncanonical_witness :
  let u := (AccessAlpha set_flag (fresh base)).1 in
  (Freeze u).2.2 = None ∧
  ver <$> (Freeze u).2.1 = Some VersionAlpha ∧
  alpha (Freeze u).1 = alpha u ∧
  ga (Freeze u).1 = (fill_null [] (ga u)).1 ∧
  beta (Freeze u).1 = (fill_null [] (beta u)).1.
Proof.
  pose proof (Freeze_fills_noncanonical (AccessAlpha set_flag (fresh base)).1)
    as H.
  cbv zeta in *. destruct H as (_ & _ & H).
  assert (∃ fr, (Freeze (AccessAlpha set_flag (fresh base)).1).2.1 = Some fr)
    as [fr E] by (eexists; reflexivity).
  destruct (H fr E) as (Hv & Hx & Hc & Hf & _).
  split_and!.
  - reflexivity.
  - rewrite E. simpl. rewrite Hv. reflexivity.
  - exact Hc.
  - apply (Hf VersionGA). discriminate.
  - apply (Hf VersionBeta). discriminate.
Defined.

(** SetAlpha with a value that the validation of the trait would reject. *)
Lemma Set_copies_and_skips_validation_witness :
  let r := SetAlpha renamed_alpha (fresh strict) in
  checkPostAccess (TypeTrait_FieldTraits strict VersionAlpha) renamed_alpha
    = Some (errorString "field must not be set") ∧
  r.2 = None ∧
  alpha r.1 = renamed_alpha ∧
  ga r.1 = struct_value GA_t [("Name", DString "bar"); ("NullFields", DNil)] ∧
  beta r.1 = struct_value Beta_t [("Name", DString "bar"); ("NullFields", DNil)] ∧
  errors r.1 AlphaToGAConversion = {| missingFields := [lost_flag] |} ∧
  errors r.1 AlphaToBetaConversion = {| missingFields := [lost_flag] |} ∧
  errors r.1 GAToAlphaConversion = {| missingFields := [] |}.
Proof.
  cbv zeta.
  destruct (Set_copies_and_skips_validation VersionAlpha renamed_alpha
              (fresh strict) AlphaToGAConversion AlphaToBetaConversion eq_refl)
    as (Hl & _ & (_ & _ & _ & Ho) & _ & Hp).
  destruct (Hp eq_refl) as (_ & Hs & _).
  assert ((SetAlpha renamed_alpha (fresh strict)).2 = None) as Hn by reflexivity.
  destruct (Hs Hn) as (Hd1 & Hd2 & He1 & He2).
  split_and!; [reflexivity|exact Hn|..].
  - etrans; [exact Hl|reflexivity].
  - etrans; [exact Hd1|reflexivity].
  - etrans; [exact Hd2|reflexivity].
  - etrans; [exact He1|reflexivity].
  - etrans; [exact He2|reflexivity].
  - etrans; [apply (Ho GAToAlphaConversion); discriminate|reflexivity].
Defined.

(** C7, the claim as stated, fails.  The three representation types
    declare a Name that is an integer: the constructor returns a resource,
    with Name at zero in each of them. *)
Lemma NewResource_completes_on_wrong_type :
  wrong_kind_name IntName_t ∧
  assignable TString TInt = false ∧
  ∃ obj : resource (list string) unit,
    NewResource base IntName_t IntName_t IntName_t (Some foo) None = Returned obj ∧
    Value_FieldByName (ga obj) "Name" = Some {| typ := TInt; data := DInt 0 |}.
Proof.
  split_and!; [|done|by eexists].
  exists TInt. split; [done|]. vm_compute. discriminate.
Qed.

(** NewResource on a GA type whose Name is an integer. *)
Lemma NewResource_wrong_kind_unseeded_witness :
  wrong_kind_name IntName_t ∧
  setName (Some foo) (Zero IntName_t) = Returned (Zero IntName_t) ∧
  (∃ obj : resource (list string) unit,
     NewResource base IntName_t Alpha_t Beta_t (Some foo) None = Returned obj ∧
     ga obj = Zero IntName_t) ∧
  (∃ obj : resource (list string) unit,
     NewResource base IntName_t IntName_t IntName_t None None = Returned obj ∧
     beta obj = Zero IntName_t).
Proof.
  assert (wrong_kind_name IntName_t) as Hw.
  { exists TInt. split; [reflexivity|]. vm_compute. discriminate. }
  destruct (NewResource_wrong_kind_unseeded (copierOption:=unit)
              base IntName_t Alpha_t Beta_t (Some foo) None VersionGA Hw)
    as (Hs & Hl & _ & _).
  destruct (NewResource_wrong_kind_unseeded (copierOption:=unit)
              base IntName_t IntName_t IntName_t None None VersionBeta Hw)
    as (_ & Hl' & _ & _).
  split_and!; [exact Hw|exact Hs| |].
  - eexists. split; [reflexivity|]. exact (Hl _ eq_refl).
  - eexists. split; [reflexivity|]. exact (Hl' _ eq_refl).
Defined.

End on_demo.

(** * Properties of [graphviz.go] *)

Section graphviz_facts.
Import graphviz.
Variable ResourceID_String : cloud.ResourceID → string.
Variable Path_String : api.Path → string.

Lemma append_assoc (a b c : string) : (a +:+ b) +:+ c = a +:+ (b +:+ c).
Proof.
  induction a as [|x a IH]; [done|].
  change (String x ((a +:+ b) +:+ c) = String x (a +:+ (b +:+ c))).
  by rewrite IH.
Qed.

Lemma append_nil_r (a : string) : a +:+ "" = a.
Proof.
  induction a as [|x a IH]; [done|].
  change (String x (a +:+ "") = String x a). by rewrite IH.
Qed.

Lemma join_app (l1 l2 : list string) : join (l1 ++ l2) = join l1 +:+ join l2.
Proof.
  induction l1 as [|a l1 IH]; [done|].
  change (join ((a :: l1) ++ l2)) with (a +:+ join (l1 ++ l2)).
  change (join (a :: l1)) with (a +:+ join l1).
  by rewrite IH, append_assoc.
Qed.

(** A loop that appends to a buffer. *)
Lemma foldl_append {A} (h : A → string) (l : list A) (buf : string) :
  foldl (fun buf a => buf +:+ h a) buf l = buf +:+ join (map h l).
Proof.
  revert buf. induction l as [|a l IH]; intros buf; simpl.
  - by rewrite append_nil_r.
  - rewrite IH. apply append_assoc.
Qed.

Lemma opColor_nonempty (op : Operation) : opColor op ≠ "".
Proof. by destruct op. Qed.

(** The keys come out sorted, each key of the map once. *)
Lemma sorted_keys_spec (m : gmap string string) :
  Sorted String.le (sorted_keys m) ∧
  NoDup (sorted_keys m) ∧
  ∀ k, k ∈ sorted_keys m ↔ is_Some (m !! k).
Proof.
  unfold sorted_keys. split_and!.
  - apply Sorted_merge_sort; apply _.
  - rewrite merge_sort_Permutation. apply NoDup_fst_map_to_list.
  - intros k. rewrite merge_sort_Permutation.
    change (map fst (map_to_list m)) with ((map_to_list m).*1).
    rewrite list_elem_of_fmap. split.
    + intros ([k' x] & -> & Hin). apply elem_of_map_to_list in Hin. by eexists.
    + intros [x Hx]. exists (k, x). split; [done|]. by apply elem_of_map_to_list.
Qed.

(** The keys displayed for a node, in the order of the rows. *)
Lemma sorted_keys_displayed (node : Node) :
  sorted_keys (displayed node) = displayed_keys node.
Proof.
  unfold displayed, displayed_keys. by destruct (errors_text node).
Qed.

Lemma viznode_String_format (n : viznode) :
  color n ≠ "" → shape n ≠ "" → style n ≠ "" →
  viznode_String n =
    "  " +:+ dq +:+ name n +:+ dq +:+ " [label=<" +:+ nl +:+
    "    <table border=" +:+ dq +:+ "0" +:+ dq +:+ ">" +:+ nl +:+
    title_row +:+
    separator_row +:+
    join (map (fun k => table_row k (kv_get (kv n) k)) (sorted_keys (kv n))) +:+
    "    </table>" +:+ nl +:+
    "  >,color=" +:+ color n +:+ ",shape=" +:+ shape n +:+
    ",style=" +:+ style n +:+ "]" +:+ nl.
Proof.
  intros Hc Hsh Hst. unfold viznode_String, viznode_lines. simpl.
  rewrite !bool_decide_eq_true_2 by done.
  rewrite (foldl_snoc
             (fun k => (3%nat, "<tr><td>" +:+ k +:+ "</td><td align=" +:+ dq +:+
                               "left" +:+ dq +:+ ">" +:+ kv_get (kv n) k +:+
                               "</td></tr>"))).
  rewrite (foldl_append (fun l : nat * string => indent l.1 +:+ l.2 +:+ nl)).
  rewrite !map_app, !join_app, map_map.
  rewrite (map_ext _ (fun k => table_row k (kv_get (kv n) k))).
  2:{ intros k. unfold table_row. simpl. rewrite !append_assoc. reflexivity. }
  unfold title_row, separator_row. simpl.
  rewrite !append_assoc.
  reflexivity.
Qed.

(** The body of the loop of [Do] appends the edge statements of the node
    and then its node statement. *)
Lemma Do_node_format (buf : string) (node : Node) :
  Do_node ResourceID_String Path_String buf node =
    buf +:+
    (join (map (edge_statement ResourceID_String Path_String node) (OutRefs node).1) +:+
     node_block ResourceID_String node).
Proof.
  unfold Do_node, node_block, displayed, errors_text.
  destruct (OutRefs node) as [deps oerr]; simpl.
  rewrite (foldl_append
             (fun dep => vizedge_String ResourceID_String
                           {| from := ID node; to := To dep;
                              field := Path_String (Path dep) |})).
  change (map _ deps)
    with (map (edge_statement ResourceID_String Path_String node) deps).
  rewrite append_assoc. do 2 f_equal.
  pose proof (opColor_nonempty (LocalPlan_Op node)) as Hc.
  destruct (GetErr node) as [ge|], oerr as [oe|]; simpl;
    (rewrite viznode_String_format by done); simpl;
    rewrite ?append_assoc; reflexivity.
Qed.

(** C8.  The text that Do returns: the graph declaration and the layout
    line, then for each node of the graph, in order, one edge statement per
    outbound reference, labelled with the text of its path, followed by one
    node statement; the node statement is a table with the title row, the
    separator row and one row per displayed key, the keys in increasing
    lexicographic order and each once, and its color attribute is the color
    of the node's operation. *)
Theorem Do_format (g : Graph) :
  Do ResourceID_String Path_String g =
    "digraph G {" +:+ nl +:+ "  rankdir=TB" +:+ nl +:+
    join (map (fun node =>
                 join (map (edge_statement ResourceID_String Path_String node)
                           (OutRefs node).1) +:+
                 node_block ResourceID_String node) g) +:+
    "}" +:+ nl ∧
  (∀ node,
     node_block ResourceID_String node =
       "  " +:+ dq +:+ ResourceID_String (ID node) +:+ dq +:+ " [label=<" +:+ nl +:+
       "    <table border=" +:+ dq +:+ "0" +:+ dq +:+ ">" +:+ nl +:+
       title_row +:+
       separator_row +:+
       join (map (fun k => table_row k (kv_get (displayed node) k))
                 (sorted_keys (displayed node))) +:+
       "    </table>" +:+ nl +:+
       "  >,color=" +:+ opColor (LocalPlan_Op node) +:+
       ",shape=box,style=filled]" +:+ nl ∧
     Sorted String.le (sorted_keys (displayed node)) ∧
     NoDup (sorted_keys (displayed node)) ∧
     (∀ k, k ∈ sorted_keys (displayed node) ↔ is_Some (displayed node !! k)) ∧
     sorted_keys (displayed node) = displayed_keys node ∧
     displayed node !! "localPlan" = Some (LocalPlan_GraphvizString node) ∧
     displayed node !! "state" = Some (State node) ∧
     displayed node !! "errors" = errors_text node) ∧
  (∀ a b, opColor a = opColor b → a = b ∨ ∃ n m, a = OpOther n ∧ b = OpOther m).
Proof.
  split_and!.
  - unfold Do.
    assert (∀ buf, foldl (Do_node ResourceID_String Path_String) buf g =
              buf +:+ join (map (fun node =>
                 join (map (edge_statement ResourceID_String Path_String node)
                           (OutRefs node).1) +:+
                 node_block ResourceID_String node) g)) as Hloop.
    { induction g as [|node g IH]; intros buf; simpl.
      - by rewrite append_nil_r.
      - rewrite IH, Do_node_format.
        change (join (?a :: ?l)) with (a +:+ join l).
        by rewrite !append_assoc. }
    rewrite Hloop. rewrite !append_assoc. reflexivity.
  - intros node. destruct (sorted_keys_spec (displayed node)) as (Hs & Hn & Hk).
    split_and!; [done|done|done|done|apply sorted_keys_displayed|..];
      unfold displayed; by destruct (errors_text node).
  - intros a b. destruct a, b; simpl; intros Hab; try discriminate Hab;
      try (by left); right; eauto.
Qed.

End graphviz_facts.

(** * Further properties of [resource.go] *)

Section resource_more_facts.
Import meta api.
Context {FieldTraits copierOption : Type} `{!Package FieldTraits copierOption}.
Local Abbreviation resource := (api.resource FieldTraits copierOption).
Local Abbreviation TypeTrait := (api.TypeTrait FieldTraits).

(** Whether [postAccess] gets past its validation step. *)
Lemma postAccess_validated (s : Version) (flags : Z) (u : resource) :
  (Z.land flags postAccessSkipValidation ≠ 0%Z ∨
   checkPostAccess (TypeTrait_FieldTraits (typeTrait u) s) (load u s) = None) →
  postAccess s flags u = convert_loop s (map conversion (outbound s)) u.
Proof.
  intros Hv. rewrite postAccess_unfold. case_bool_decide; [|done].
  by destruct Hv as [?| ->].
Qed.

Lemma postAccess_rejected (s : Version) (flags : Z) (u : resource) (e : error) :
  Z.land flags postAccessSkipValidation = 0%Z →
  checkPostAccess (TypeTrait_FieldTraits (typeTrait u) s) (load u s) = Some e →
  postAccess s flags u = (u, Some e).
Proof.
  intros Hf Hc. rewrite postAccess_unfold.
  rewrite bool_decide_eq_true_2 by done. by rewrite Hc.
Qed.

(** Read a field or a slot of a resource built by stores. *)
Ltac frame :=
  repeat first
    [ rewrite load_set_errors
    | rewrite load_store
    | rewrite load_store_ne by done
    | rewrite errors_store
    | rewrite typeTrait_store
    | rewrite resourceID_store
    | rewrite copierOptions_store
    | rewrite fn_lookup_insert
    | rewrite fn_lookup_insert_ne by done
    | progress simpl ].

(** X1.  A propagation returns nil exactly when its validation passes or
    is skipped and the copy and the hook of both destinations return nil.
    Then each destination holds what its hook left of the copied value,
    each of the two slots out of the source holds the list of this call's
    copy, whatever it held before, and the source and the four other slots
    are as before. *)
Theorem postAccess_success (s : Version) (flags : Z) (u : resource)
  (c1 c2 : ConversionContext) :
  outbound s = [c1; c2] →
  let copy cc :=
    copier_do (copierOptions u) (load u (context_dest cc)) (load u s) in
  let hook cc := hook_of (typeTrait u) cc (copy cc).1.1 (load u s) in
  let r := postAccess s flags u in
  (r.2 = None ↔
   (Z.land flags postAccessSkipValidation ≠ 0%Z ∨
    checkPostAccess (TypeTrait_FieldTraits (typeTrait u) s) (load u s) = None) ∧
   (copy c1).2 = None ∧ (hook c1).2 = None ∧
   (copy c2).2 = None ∧ (hook c2).2 = None) ∧
  (r.2 = None →
   load r.1 s = load u s ∧
   load r.1 (context_dest c1) = (hook c1).1 ∧
   load r.1 (context_dest c2) = (hook c2).1 ∧
   errors r.1 c1 = {| missingFields := (copy c1).1.2 |} ∧
   errors r.1 c2 = {| missingFields := (copy c2).1.2 |} ∧
   (∀ cc, cc ≠ c1 → cc ≠ c2 → errors r.1 cc = errors u cc)).
Proof.
  intros Ho; simpl.
  destruct (outbound_pair s c1 c2 Ho) as (Hc & Hd & Hs1 & Hs2).
  rewrite postAccess_unfold.
  case_bool_decide as Hf.
  - destruct (checkPostAccess _ _) as [err|] eqn:Hchk; simpl.
    { split; [|done]. split; [done|]. intros ([?|?] & _); done. }
    rewrite (convert_loop_outbound s u c1 c2 Ho); simpl.
    destruct (copier_do _ _ _).2 eqn:E1; simpl;
      [split; [split; [done|intros (_ & ? & _); done]|done]|].
    destruct (hook_of _ c1 _ _).2 eqn:E2; simpl;
      [split; [split; [done|intros (_ & _ & ? & _); done]|done]|].
    destruct (copier_do _ (load u (context_dest c2)) _).2 eqn:E3; simpl;
      [split; [split; [done|intros (_ & _ & _ & ? & _); done]|done]|].
    destruct (hook_of _ c2 _ _).2 eqn:E4; simpl;
      [split; [split; [done|intros (_ & _ & _ & _ & ?); done]|done]|].
    split; [split; [intros _; split_and!; auto|done]|]. intros _.
    split_and!; [..|intros cc H1 H2]; by frame.
  - rewrite (convert_loop_outbound s u c1 c2 Ho); simpl.
    destruct (copier_do _ _ _).2 eqn:E1; simpl;
      [split; [split; [done|intros (_ & ? & _); done]|done]|].
    destruct (hook_of _ c1 _ _).2 eqn:E2; simpl;
      [split; [split; [done|intros (_ & _ & ? & _); done]|done]|].
    destruct (copier_do _ (load u (context_dest c2)) _).2 eqn:E3; simpl;
      [split; [split; [done|intros (_ & _ & _ & ? & _); done]|done]|].
    destruct (hook_of _ c2 _ _).2 eqn:E4; simpl;
      [split; [split; [done|intros (_ & _ & _ & _ & ?); done]|done]|].
    split; [split; [intros _; split_and!; auto|done]|]. intros _.
    split_and!; [..|intros cc H1 H2]; by frame.
Qed.

(** X2.  When the copier fails, the propagation returns its error and
    does not run the hook of that destination.  For the first destination:
    the destination holds what the copier left, the second destination and
    the whole error table are as before.  For the second destination, after
    the first completed: the first keeps its value and its recorded list,
    the second holds what the copier left and its slot is as before. *)
Theorem postAccess_copier_error (s : Version) (flags : Z) (u : resource)
  (c1 c2 : ConversionContext) (e : error) :
  outbound s = [c1; c2] →
  (Z.land flags postAccessSkipValidation ≠ 0%Z ∨
   checkPostAccess (TypeTrait_FieldTraits (typeTrait u) s) (load u s) = None) →
  let copy cc :=
    copier_do (copierOptions u) (load u (context_dest cc)) (load u s) in
  let hook cc := hook_of (typeTrait u) cc (copy cc).1.1 (load u s) in
  let r := postAccess s flags u in
  ((copy c1).2 = Some e →
   r.2 = Some e ∧
   load r.1 (context_dest c1) = (copy c1).1.1 ∧
   load r.1 (context_dest c2) = load u (context_dest c2) ∧
   (∀ cc, errors r.1 cc = errors u cc)) ∧
  ((copy c1).2 = None → (hook c1).2 = None → (copy c2).2 = Some e →
   r.2 = Some e ∧
   load r.1 (context_dest c1) = (hook c1).1 ∧
   errors r.1 c1 = {| missingFields := (copy c1).1.2 |} ∧
   load r.1 (context_dest c2) = (copy c2).1.1 ∧
   (∀ cc, cc ≠ c1 → errors r.1 cc = errors u cc)).
Proof.
  intros Ho Hv; simpl.
  destruct (outbound_pair s c1 c2 Ho) as (Hc & Hd & _ & _).
  rewrite (postAccess_validated s flags u Hv).
  rewrite (convert_loop_outbound s u c1 c2 Ho); simpl.
  split.
  - intros ->; simpl. split_and!; [done|..|intros cc]; by frame.
  - intros -> -> ->; simpl. split_and!; [done|..|intros cc Hcc]; by frame.
Qed.

(** The loop over the conversions out of a version writes neither the
    source, nor the trait, the options and the identity, nor a slot of a
    context that does not start at the source. *)
Lemma convert_loop_frame (s : Version) (u : resource) :
  let r := convert_loop s (map conversion (outbound s)) u in
  load r.1 s = load u s ∧
  typeTrait r.1 = typeTrait u ∧
  copierOptions r.1 = copierOptions u ∧
  resourceID r.1 = resourceID u ∧
  (∀ cc, context_src cc ≠ s → errors r.1 cc = errors u cc).
Proof.
  pose proof (outbound_eq s) as Ho.
  destruct s;
    match type of Ho with outbound ?s = [?c1; ?c2] =>
      rewrite (convert_loop_outbound s u c1 c2 Ho) end; simpl;
    repeat (case_match; simpl);
    (split_and!; [done..|]); intros cc Hcc; destruct cc; try done; by frame.
Qed.

(** X3.  Whatever it returns, a propagation out of a version leaves that
    version, the trait, the copier options and the identity as they were,
    and writes no slot of the error table other than the two of the
    contexts that start at that version. *)
Theorem postAccess_frame (s : Version) (flags : Z) (u : resource) :
  let r := postAccess s flags u in
  load r.1 s = load u s ∧
  typeTrait r.1 = typeTrait u ∧
  copierOptions r.1 = copierOptions u ∧
  resourceID r.1 = resourceID u ∧
  (∀ cc, context_src cc ≠ s → errors r.1 cc = errors u cc).
Proof.
  simpl. rewrite postAccess_unfold.
  pose proof (convert_loop_frame s u) as Hl.
  repeat case_match; done.
Qed.

Lemma postAccess_errors_frame (s : Version) (flags : Z) (u : resource)
  (cc : ConversionContext) :
  context_src cc ≠ s → errors (postAccess s flags u).1 cc = errors u cc.
Proof.
  intros Hcc. rewrite postAccess_unfold.
  destruct (convert_loop_frame s u) as (_ & _ & _ & _ & Hl).
  repeat case_match; try done; by apply Hl.
Qed.

(** *** What the To*() methods and ImpliedVersion read *)

Lemma To_nil_two (v : Version) (u : resource) (a b : ConversionContext) :
  inbound v = [a; b] →
  (To v u).2 = None ↔
  missingFields (errors u a) = [] ∧ missingFields (errors u b) = [].
Proof.
  intros Hi. rewrite To_unfold; simpl. rewrite Hi.
  destruct (hasErr_nil (collect [a; b] u)) as [Hn1 Hn2].
  rewrite collect_flat_map in Hn1, Hn2. simpl in Hn1, Hn2.
  rewrite app_nil_r in Hn1, Hn2. unfold tagged in Hn1, Hn2.
  destruct (hasErr _).
  - split; [done|]. intros [Ha Hb]. rewrite Ha, Hb in Hn2.
    by specialize (Hn2 eq_refl).
  - split; [|done]. intros _. specialize (Hn1 eq_refl).
    apply app_eq_nil in Hn1 as [Ha Hb].
    by apply map_eq_nil in Ha, Hb.
Qed.

Lemma collect_ext (ccs : list ConversionContext) (u u' : resource) :
  (∀ cc, cc ∈ ccs → errors u cc = errors u' cc) →
  collect ccs u = collect ccs u'.
Proof.
  intros He. unfold collect. f_equal. rewrite !collect_from. f_equal.
  induction ccs as [|cc ccs IH]; [done|]. simpl.
  rewrite IH by (intros; apply He; set_solver).
  unfold tagged. rewrite (He cc) by set_solver. done.
Qed.

Lemma To_error_ext (v : Version) (u u' : resource) :
  (∀ cc, context_dest cc = v → errors u cc = errors u' cc) →
  (To v u).2 = (To v u').2.
Proof.
  intros He. rewrite !To_unfold; simpl.
  rewrite (collect_ext (inbound v) u u'); [done|].
  intros cc Hcc. apply He. unfold inbound in Hcc.
  by apply list_elem_of_filter in Hcc as [? _].
Qed.

Lemma ImpliedVersion_ext (u u' : resource) :
  (∀ cc, errors u cc = errors u' cc) → ImpliedVersion u = ImpliedVersion u'.
Proof.
  intros He. unfold ImpliedVersion.
  change (ToGA u) with (To VersionGA u). change (ToGA u') with (To VersionGA u').
  change (ToAlpha u) with (To VersionAlpha u).
  change (ToAlpha u') with (To VersionAlpha u').
  change (ToBeta u) with (To VersionBeta u).
  change (ToBeta u') with (To VersionBeta u').
  by rewrite !(To_error_ext _ u u').
Qed.

Lemma SetOf_frame (p : Version) (src : Value) (u : resource) :
  ∀ cc, context_src cc ≠ p → errors (SetOf p src u).1 cc = errors u cc.
Proof.
  intros cc Hcc. rewrite SetOf_unfold; simpl.
  destruct (copier_do _ _ _).2; simpl; [by rewrite errors_store|].
  destruct (convert_loop_frame p (store p (copier_do (copierOptions u) (load u p) src).1.1 u))
    as (_ & _ & _ & _ & Hf).
  rewrite Hf by done. by rewrite errors_store.
Qed.

(** X4.  Access, AccessAlpha, AccessBeta, Set, SetAlpha and SetBeta never
    change the error that the To*() method of their own version returns:
    it is read from the two slots that lead into the version, and a
    propagation out of the version writes neither. *)
Theorem To_own_version_unchanged (v : Version) (u : resource) :
  (∀ f, (To v (AccessOf v f u).1).2 = (To v u).2) ∧
  (∀ src, (To v (SetOf v src u).1).2 = (To v u).2).
Proof.
  split.
  - intros f. rewrite AccessOf_unfold. apply To_error_ext. intros cc Hd.
    rewrite postAccess_errors_frame, errors_store; [done|].
    rewrite <- Hd. apply not_eq_sym, context_dest_src.
  - intros src. apply To_error_ext. intros cc Hd. apply SetOf_frame.
    rewrite <- Hd. apply not_eq_sym, context_dest_src.
Qed.

(** X5.  ImpliedVersion after a propagation out of version s on a resource
    whose error table was empty, in terms of the two lists m1 and m2 that
    the slots out of s hold afterwards: GA when both are empty; s itself
    when s is Alpha or Beta and both are non-empty; an error when s is GA
    and one of them is non-empty, and an error when exactly one of them is
    non-empty. *)
Theorem ImpliedVersion_after_propagation (s : Version) (flags : Z)
  (u : resource) (c1 c2 : ConversionContext) :
  outbound s = [c1; c2] →
  (∀ cc, missingFields (errors u cc) = []) →
  let r := postAccess s flags u in
  let m1 := missingFields (errors r.1 c1) in
  let m2 := missingFields (errors r.1 c2) in
  (m1 = [] → m2 = [] → ImpliedVersion r.1 = (VersionGA, None)) ∧
  (s ≠ VersionGA → m1 ≠ [] → m2 ≠ [] → ImpliedVersion r.1 = (s, None)) ∧
  (s = VersionGA → m1 ≠ [] ∨ m2 ≠ [] → (ImpliedVersion r.1).2 ≠ None) ∧
  ((m1 = [] ∧ m2 ≠ []) ∨ (m1 ≠ [] ∧ m2 = []) → (ImpliedVersion r.1).2 ≠ None).
Proof.
  intros Ho Hclean; simpl.
  pose proof (postAccess_errors_frame s flags u) as Hfr.
  set (r := postAccess s flags u) in *.
  assert (∀ cc, context_src cc ≠ s → missingFields (errors r.1 cc) = []) as Hz.
  { intros cc Hcc. rewrite Hfr by done. apply Hclean. }
  pose proof (To_nil_two VersionGA r.1 _ _ eq_refl) as HG.
  pose proof (To_nil_two VersionAlpha r.1 _ _ eq_refl) as HA.
  pose proof (To_nil_two VersionBeta r.1 _ _ eq_refl) as HB.
  simpl in HG, HA, HB. unfold ImpliedVersion.
  rewrite outbound_eq in Ho.
  destruct s; simplify_eq;
    repeat match goal with
      | H : context [missingFields (errors r.1 ?c)] |- _ =>
          rewrite (Hz c) in H by done
      end;
    destruct (ToGA r.1).2, (ToAlpha r.1).2, (ToBeta r.1).2;
    destruct (missingFields (errors r.1 _)), (missingFields (errors r.1 _));
    simpl; split_and!; intros; try done; exfalso; intuition congruence.
Qed.

(** X6.  When the copier fails in Set, SetAlpha or SetBeta, the call
    returns its error without propagating: the named version holds what
    the copier left, the two other versions and the whole error table are
    as before. *)
Theorem Set_copier_error (p : Version) (src : Value) (u : resource) (e : error) :
  (copier_do (copierOptions u) (load u p) src).2 = Some e →
  let r := SetOf p src u in
  r.2 = Some e ∧
  load r.1 p = (copier_do (copierOptions u) (load u p) src).1.1 ∧
  (∀ w, w ≠ p → load r.1 w = load u w) ∧
  (∀ cc, errors r.1 cc = errors u cc).
Proof.
  intros He; simpl. rewrite SetOf_unfold; simpl. rewrite He; simpl.
  split_and!; [done| |intros w Hw|intros cc]; by frame.
Qed.

(** X7.  The validation of a propagation is decided by the lowest bit of
    the flags alone: with an odd value the result is that of the skip
    flag, with an even value that of the flags 0; and when the validation
    passes, the flags make no difference. *)
Theorem postAccess_flags (s : Version) (flags : Z) (u : resource) :
  (Z.odd flags = true →
   postAccess s flags u = postAccess s postAccessSkipValidation u) ∧
  (Z.odd flags = false → postAccess s flags u = postAccess s 0 u) ∧
  (checkPostAccess (TypeTrait_FieldTraits (typeTrait u) s) (load u s) = None →
   postAccess s flags u = postAccess s postAccessSkipValidation u).
Proof.
  assert (Z.land flags postAccessSkipValidation = Z.b2z (Z.odd flags)) as Hb.
  { change postAccessSkipValidation with (Z.ones 1).
    rewrite Z.land_ones by lia. rewrite <- Z.bit0_odd, Z.bit0_mod.
    reflexivity. }
  rewrite !postAccess_unfold, Hb. split_and!.
  - by intros ->.
  - by intros ->.
  - intros ->. by repeat case_bool_decide.
Qed.

(** *** Freeze *)

(** X8.  Whatever it returns, Freeze leaves the error table, the trait and
    the identity as they were, so ImpliedVersion gives the same answer
    after it as before.  When ImpliedVersion fails, Freeze returns that
    error and the resource is untouched, no fill step having run.  When
    Freeze succeeds, the version of the frozen resource is the implied
    version of the resource it points to. *)
Theorem Freeze_agrees_with_ImpliedVersion (u : resource) :
  (∀ cc, errors (Freeze u).1 cc = errors u cc) ∧
  typeTrait (Freeze u).1 = typeTrait u ∧
  resourceID (Freeze u).1 = resourceID u ∧
  ImpliedVersion (Freeze u).1 = ImpliedVersion u ∧
  (∀ e, (ImpliedVersion u).2 = Some e → Freeze u = (u, (None, Some e))) ∧
  (∀ fr, (Freeze u).2.1 = Some fr → ImpliedVersion (x fr) = (ver fr, None)).
Proof.
  assert ((∀ cc, errors (Freeze u).1 cc = errors u cc) ∧
          typeTrait (Freeze u).1 = typeTrait u ∧
          resourceID (Freeze u).1 = resourceID u ∧
          (∀ fr, (Freeze u).2.1 = Some fr →
             x fr = (Freeze u).1 ∧ (ImpliedVersion u) = (ver fr, None)))
    as (He & Ht & Hi & Hfr).
  { unfold Freeze. destruct (ImpliedVersion u) as [canon [err|]]; [done|].
    destruct canon; simpl; unfold fill; simpl;
      repeat match goal with
        | |- context [fillNullAndForceSend ?t ?v] =>
            destruct (fillNullAndForceSend t v) as [? [?|]]; simpl
        end;
      split_and!; try done; by intros fr [= <-]. }
  pose proof (ImpliedVersion_ext (Freeze u).1 u He) as Hiv.
  split_and!; [done..| |].
  - intros e Hie. unfold Freeze.
    destruct (ImpliedVersion u) as [canon [err|]]; simpl in *; by simplify_eq.
  - intros fr Hs. destruct (Hfr fr Hs) as [-> <-]. done.
Qed.

(** X9.  The fill steps of Freeze run in the order GA, Alpha, Beta over
    the versions other than the implied one, and a failure is not rolled
    back.  With a before b the two such versions: when the step on a
    fails, Freeze returns its error, a holds what the step left and b is
    untouched; when the step on a succeeds and the one on b fails, Freeze
    returns that error and a stays filled.  The implied version is
    untouched in both cases. *)
Theorem Freeze_partial_failure (u : resource) (a b : Version) (e : error) :
  (ImpliedVersion u).2 = None →
  a ≠ (ImpliedVersion u).1 → b ≠ (ImpliedVersion u).1 →
  (Version_rank a < Version_rank b)%nat →
  let canon := (ImpliedVersion u).1 in
  let filled v :=
    fillNullAndForceSend (TypeTrait_FieldTraits (typeTrait u) v) (load u v) in
  let r := Freeze u in
  ((filled a).2 = Some e →
   r.2 = (None, Some e) ∧
   load r.1 a = (filled a).1 ∧
   load r.1 b = load u b ∧
   load r.1 canon = load u canon) ∧
  ((filled a).2 = None → (filled b).2 = Some e →
   r.2 = (None, Some e) ∧
   load r.1 a = (filled a).1 ∧
   load r.1 b = (filled b).1 ∧
   load r.1 canon = load u canon).
Proof.
  unfold Freeze.
  destruct (ImpliedVersion u) as [canon [err|]]; simpl; [done|].
  intros _ Ha Hb Hlt.
  destruct canon, a, b; simpl in *; try done; try lia; unfold fill; simpl;
    (split; [intros H1|intros H1 H2]);
    repeat match goal with
      | |- context [fillNullAndForceSend ?t ?v] =>
          let d := fresh "d" in let e := fresh "e" in
          destruct (fillNullAndForceSend t v) as [d [e|]] eqn:?;
          simpl in *; simplify_eq
      end; done.
Qed.

(** *** NewResource and CheckSchema *)

(** X10.  NewResource returns a resource exactly when each of the three
    types is a struct and, where it has a Name field of kind string, that
    field is of the type string itself and neither the identity nor its key
    is nil; on any other input (a type that is not a struct, a Name of a
    defined string type, a nil identity or key with a Name to assign) the
    constructor aborts. *)
Theorem NewResource_returns_iff (Base : TypeTrait) (GA Alpha Beta : GoType)
  (id : option cloud.ResourceID) (tt : option TypeTrait) :
  (∃ obj : resource, NewResource Base GA Alpha Beta id tt = Returned obj) ↔
  setName_returns id GA ∧ setName_returns id Alpha ∧ setName_returns id Beta.
Proof.
  rewrite <- !setName_Zero_iff. split.
  - intros [obj Ho]. apply NewResource_Returned in Ho
      as (vg & va & vb & Eg & Ea & Eb & _).
    split_and!; by eexists.
  - intros ([vg Eg] & [va Ea] & [vb Eb]).
    eexists. apply NewResource_Returned. by exists vg, va, vb.
Qed.

(** X11.  A resource that NewResource returns carries the given trait, or
    the base trait when none is given, the given identity and no copier
    options; its table is empty, so ToGA, ToAlpha and ToBeta return no
    error and ImpliedVersion is GA. *)
Theorem NewResource_fresh (Base : TypeTrait) (GA Alpha Beta : GoType)
  (id : option cloud.ResourceID) (tt : option TypeTrait) (obj : resource) :
  NewResource Base GA Alpha Beta id tt = Returned obj →
  typeTrait obj = default Base tt ∧
  resourceID obj = id ∧
  copierOptions obj = [] ∧
  typ (ga obj) = GA ∧ typ (alpha obj) = Alpha ∧ typ (beta obj) = Beta ∧
  (∀ v, (To v obj).2 = None) ∧
  ImpliedVersion obj = (VersionGA, None).
Proof.
  intros Ho. apply NewResource_Returned in Ho
    as (vg & va & vb & Eg & Ea & Eb & ->). simpl.
  pose proof (setName_Zero_cases id GA) as Hg. rewrite Eg in Hg.
  pose proof (setName_Zero_cases id Alpha) as Ha. rewrite Ea in Ha.
  pose proof (setName_Zero_cases id Beta) as Hb. rewrite Eb in Hb.
  destruct Hg as (_ & Hg & _), Ha as (_ & Ha & _), Hb as (_ & Hb & _).
  split_and!; try done.
  intros []; reflexivity.
Qed.

(** X12.  CheckSchema returns nil exactly when the check passes on the
    pointer types of the three representations; otherwise it returns the
    error of the first type that fails, in the order GA, Alpha, Beta, and
    the types after it are not reported. *)
Theorem CheckSchema_first_error (checkSchema : GoType → option error)
  (u : resource) :
  let chk v := checkSchema (TPtr (typ (load u v))) in
  (CheckSchema checkSchema u = None ↔ ∀ v, chk v = None) ∧
  (∀ e, CheckSchema checkSchema u = Some e ↔
     ∃ v, chk v = Some e ∧
          ∀ w, (Version_rank w < Version_rank v)%nat → chk w = None).
Proof.
  simpl. unfold CheckSchema.
  destruct (checkSchema (TPtr (typ (ga u)))) as [eg|] eqn:Eg.
  { split.
    - split; [done|]. intros Hall. specialize (Hall VersionGA). simpl in Hall.
      congruence.
    - intros e. split.
      + intros [= <-]. exists VersionGA. split; [done|]. intros []; simpl; lia.
      + intros (v & Hv & Hw). destruct v; simpl in *; [congruence| |];
          specialize (Hw VersionGA); simpl in Hw; rewrite Hw in Eg by lia; done. }
  destruct (checkSchema (TPtr (typ (alpha u)))) as [ea|] eqn:Ea.
  { split.
    - split; [done|]. intros Hall. specialize (Hall VersionAlpha).
      simpl in Hall. congruence.
    - intros e. split.
      + intros [= <-]. exists VersionAlpha. split; [done|].
        intros []; simpl; try lia. done.
      + intros (v & Hv & Hw). destruct v; simpl in *; [congruence|congruence|].
        specialize (Hw VersionAlpha); simpl in Hw; rewrite Hw in Ea by lia; done. }
  destruct (checkSchema (TPtr (typ (beta u)))) as [eb|] eqn:Eb.
  { split.
    - split; [done|]. intros Hall. specialize (Hall VersionBeta).
      simpl in Hall. congruence.
    - intros e. split.
      + intros [= <-]. exists VersionBeta. split; [done|].
        intros []; simpl; try lia; done.
      + intros (v & Hv & Hw). destruct v; simpl in *; congruence. }
  split.
  - split; [|done]. intros _ []; done.
  - intros e. split; [done|]. intros (v & Hv & _). destruct v; simpl in *; congruence.
Qed.

End resource_more_facts.

(** * Further properties of [graphviz.go] *)

Section graphviz_more_facts.
Import graphviz.
Variable ResourceID_String : cloud.ResourceID → string.
Variable Path_String : api.Path → string.

(** X13.  The loop of indent yields two spaces per level: the text has
    length 2n, and the indentation of n + m levels is that of n followed by
    that of m. *)
Theorem indent_length (n m : nat) :
  String.length (indent n) = (2 * n)%nat ∧
  indent (n + m) = indent n +:+ indent m.
Proof.
  assert (∀ a b, String.length (a +:+ b) = (String.length a + String.length b)%nat)
    as Hlen.
  { intros a b. induction a as [|x a IH]; [done|].
    change (S (String.length (a +:+ b)) = S (String.length a + String.length b)).
    by rewrite IH. }
  split.
  - induction n as [|n IH]; [done|].
    change (indent (S n)) with (indent n +:+ "  ").
    rewrite Hlen, IH. simpl. lia.
  - induction m as [|m IH].
    + rewrite Nat.add_0_r. symmetry. apply append_nil_r.
    + rewrite Nat.add_succ_r.
      change (indent (S (n + m))) with (indent (n + m) +:+ "  ").
      change (indent (S m)) with (indent m +:+ "  ").
      by rewrite IH, append_assoc.
Qed.

(** X14.  The rows of a node do not depend on the order in which the keys
    of the map are visited: sorting any arrangement of the keys gives the
    same list, which has one entry per key of the map. *)
Theorem sorted_keys_any_order (m : gmap string string) (l : list string) :
  l ≡ₚ (map_to_list m).*1 →
  merge_sort String.le l = sorted_keys m ∧
  length (sorted_keys m) = size m.
Proof.
  intros Hl. split.
  - apply (Sorted_unique String.le).
    + apply Sorted_merge_sort; apply _.
    + apply Sorted_merge_sort; apply _.
    + unfold sorted_keys. rewrite !merge_sort_Permutation. done.
  - unfold sorted_keys. rewrite merge_sort_Permutation.
    change (map fst (map_to_list m)) with ((map_to_list m).*1).
    rewrite length_fmap. apply length_map_to_list.
Qed.

(** The loop over the three attributes leaves out the empty ones. *)
Lemma attributes_loop (n : viznode) :
  foldl (fun attribsStr (at_ : string * string) =>
           if bool_decide (at_.2 ≠ "") then
             attribsStr +:+ "," +:+ at_.1 +:+ "=" +:+ at_.2
           else attribsStr)
        "" [("color", color n); ("shape", shape n); ("style", style n)]
  = attributes n.
Proof.
  unfold attributes. simpl.
  rewrite !filter_cons, filter_nil. simpl.
  repeat case_decide; repeat case_bool_decide; try done;
    simpl; rewrite ?append_assoc, ?append_nil_r; reflexivity.
Qed.

(** X15.  The text of a node statement, for any node: the header with the
    name, the table with the title row, the separator row and one row per
    key of the map in sorted order (no row when the map is empty), and the
    attributes, of which those with an empty value are left out. *)
Theorem viznode_String_any (n : viznode) :
  viznode_String n =
    "  " +:+ dq +:+ name n +:+ dq +:+ " [label=<" +:+ nl +:+
    "    <table border=" +:+ dq +:+ "0" +:+ dq +:+ ">" +:+ nl +:+
    title_row +:+
    separator_row +:+
    join (map (fun k => table_row k (kv_get (kv n) k)) (sorted_keys (kv n))) +:+
    "    </table>" +:+ nl +:+
    "  >" +:+ attributes n +:+ "]" +:+ nl ∧
  (kv n = ∅ → sorted_keys (kv n) = []) ∧
  (color n = "" → shape n = "" → style n = "" → attributes n = "") ∧
  (color n ≠ "" → shape n = "" → style n = "" →
   attributes n = ",color=" +:+ color n).
Proof.
  split_and!.
  - unfold viznode_String, viznode_lines.
    rewrite attributes_loop. simpl.
    rewrite (foldl_snoc
               (fun k => (3%nat, "<tr><td>" +:+ k +:+ "</td><td align=" +:+ dq +:+
                                 "left" +:+ dq +:+ ">" +:+ kv_get (kv n) k +:+
                                 "</td></tr>"))).
    rewrite (foldl_append (fun l : nat * string => indent l.1 +:+ l.2 +:+ nl)).
    rewrite !map_app, !join_app, map_map.
    rewrite (map_ext _ (fun k => table_row k (kv_get (kv n) k))).
    2:{ intros k. unfold table_row. simpl. rewrite !append_assoc. reflexivity. }
    unfold title_row, separator_row. simpl.
    rewrite !append_assoc.
    reflexivity.
  - intros ->. reflexivity.
  - intros Hc Hs Ht. unfold attributes. by rewrite Hc, Hs, Ht.
  - intros Hc Hs Ht. unfold attributes. rewrite Hs, Ht.
    rewrite filter_cons_True by done. simpl.
    by rewrite append_nil_r.
Qed.

(** The loop of [Do] over the nodes. *)
Lemma Do_nodes_loop (g : Graph) (buf : string) :
  foldl (Do_node ResourceID_String Path_String) buf g =
    buf +:+ nodes_text ResourceID_String Path_String g.
Proof.
  revert buf. induction g as [|node g IH]; intros buf.
  - symmetry. apply append_nil_r.
  - simpl. rewrite IH, Do_node_format.
    unfold nodes_text. simpl. change (join (?a :: ?l)) with (a +:+ join l).
    by rewrite !append_assoc.
Qed.

(** X16.  The text of a graph is the declaration and the layout line, the
    texts of its nodes in order, and the closing line: an empty graph gives
    the three lines alone, and the text of the nodes of two graphs put one
    after the other is the text of the first followed by that of the
    second. *)
Theorem Do_compositional (g1 g2 : Graph) :
  Do ResourceID_String Path_String [] =
    "digraph G {" +:+ nl +:+ "  rankdir=TB" +:+ nl +:+ "}" +:+ nl ∧
  Do ResourceID_String Path_String (g1 ++ g2) =
    "digraph G {" +:+ nl +:+ "  rankdir=TB" +:+ nl +:+
    nodes_text ResourceID_String Path_String g1 +:+
    nodes_text ResourceID_String Path_String g2 +:+
    "}" +:+ nl ∧
  ∀ g, Do ResourceID_String Path_String g =
    "digraph G {" +:+ nl +:+ "  rankdir=TB" +:+ nl +:+
    nodes_text ResourceID_String Path_String g +:+ "}" +:+ nl.
Proof.
  assert (∀ g, Do ResourceID_String Path_String g =
            "digraph G {" +:+ nl +:+ "  rankdir=TB" +:+ nl +:+
            nodes_text ResourceID_String Path_String g +:+ "}" +:+ nl) as HDo.
  { intros g. unfold Do. rewrite Do_nodes_loop. by rewrite !append_assoc. }
  split_and!; [reflexivity| |done].
  rewrite HDo. do 4 f_equal. unfold nodes_text.
  by rewrite map_app, join_app, append_assoc.
Qed.

End graphviz_more_facts.

(** * The further properties on concrete inputs *)

Section on_demo_more.
Import meta api demo.

(** A propagation out of Alpha that completes. *)
Lemma postAccess_success_witness :
  let u := set_alpha (set_flag (alpha (fresh base))) (fresh base) in
  let r := postAccess VersionAlpha 0 u in
  r.2 = None ∧
  alpha r.1 = alpha u ∧
  errors r.1 AlphaToGAConversion = {| missingFields := [lost_flag] |} ∧
  errors r.1 AlphaToBetaConversion = {| missingFields := [lost_flag] |} ∧
  errors r.1 GAToAlphaConversion = {| missingFields := [] |}.
Proof.
  simpl.
  destruct (postAccess_success VersionAlpha 0
              (set_alpha (set_flag (alpha (fresh base))) (fresh base))
              AlphaToGAConversion AlphaToBetaConversion eq_refl)
    as [_ H].
  destruct H as (Hs & _ & _ & H1 & H2 & Ho); [reflexivity|].
  split_and!; [reflexivity|exact Hs| | |].
  - etrans; [exact H1|reflexivity].
  - etrans; [exact H2|reflexivity].
  - etrans; [apply (Ho GAToAlphaConversion); discriminate|reflexivity].
Defined.

(** The copier fails on a GA, and on a Beta, that is not a struct. *)
Lemma postAccess_copier_error_witness :
  (let r := postAccess VersionAlpha 0 broken_ga in
   r.2 = Some (errorString "copy: not a struct") ∧
   beta r.1 = beta broken_ga ∧
   (∀ cc, errors r.1 cc = errors broken_ga cc)) ∧
  (let u := set_alpha (set_flag (alpha broken_beta)) broken_beta in
   let r := postAccess VersionAlpha 0 u in
   r.2 = Some (errorString "copy: not a struct") ∧
   errors r.1 AlphaToGAConversion = {| missingFields := [lost_flag] |} ∧
   beta r.1 = not_a_struct).
Proof.
  split; simpl.
  - destruct (postAccess_copier_error VersionAlpha 0 broken_ga
                AlphaToGAConversion AlphaToBetaConversion
                (errorString "copy: not a struct"))
      as [H _]; [reflexivity|right; reflexivity|].
    destruct H as (He & _ & Hb & Ht); [reflexivity|].
    split_and!; [exact He|exact Hb|exact Ht].
  - destruct (postAccess_copier_error VersionAlpha 0
                (set_alpha (set_flag (alpha broken_beta)) broken_beta)
                AlphaToGAConversion AlphaToBetaConversion
                (errorString "copy: not a struct"))
      as [_ H]; [reflexivity|right; reflexivity|].
    destruct H as (He & _ & H1 & Hb & _); [reflexivity..|].
    split_and!; [exact He| |].
    + etrans; [exact H1|reflexivity].
    + etrans; [exact Hb|reflexivity].
Defined.

(** ImpliedVersion after the flag was set through the Alpha path of a
    fresh resource. *)
Lemma ImpliedVersion_after_propagation_witness :
  let u := set_alpha (set_flag (alpha (fresh base))) (fresh base) in
  ImpliedVersion (postAccess VersionAlpha 0 u).1 = (VersionAlpha, None).
Proof.
  simpl.
  destruct (ImpliedVersion_after_propagation VersionAlpha 0
              (set_alpha (set_flag (alpha (fresh base))) (fresh base))
              AlphaToGAConversion AlphaToBetaConversion eq_refl)
    as (_ & H & _); [reflexivity|].
  apply H; [discriminate|vm_compute; discriminate..].
Defined.

(** SetAlpha from a value that is not a struct. *)
Lemma Set_copier_error_witness :
  let r := SetAlpha not_a_struct (fresh base) in
  r.2 = Some (errorString "copy: not a struct") ∧
  ga r.1 = ga (fresh base) ∧
  (∀ cc, errors r.1 cc = errors (fresh base) cc).
Proof.
  simpl.
  destruct (Set_copier_error VersionAlpha not_a_struct (fresh base)
              (errorString "copy: not a struct"))
    as (He & _ & Hl & Ht); [reflexivity|].
  split_and!; [exact He| |exact Ht].
  apply (Hl VersionGA). discriminate.
Defined.

(** Freeze on a resource whose Beta cannot be filled: Alpha stays filled. *)
Lemma Freeze_partial_failure_witness :
  (Freeze legacy).2 = (None, Some (errorString "fill: no NullFields")) ∧
  alpha (Freeze legacy).1 = (fill_null [] (alpha legacy)).1 ∧
  ga (Freeze legacy).1 = ga legacy.
Proof.
  destruct (Freeze_partial_failure legacy VersionAlpha VersionBeta
              (errorString "fill: no NullFields"))
    as [_ H]; [reflexivity|discriminate|discriminate|simpl; lia|].
  destruct H as (He & Ha & _ & Hc); [reflexivity..|].
  split_and!; [exact He|exact Ha|exact Hc].
Defined.

(** The resource that NewResource returns for the three demo types. *)
Lemma NewResource_fresh_witness :
  ∃ obj : resource (list string) unit,
    NewResource base GA_t Alpha_t Beta_t (Some foo) None = Returned obj ∧
    typeTrait obj = base ∧
    ImpliedVersion obj = (VersionGA, None).
Proof.
  eexists. split; [reflexivity|].
  destruct (NewResource_fresh (copierOption:=unit) base GA_t Alpha_t Beta_t (Some foo) None
              _ eq_refl)
    as (Ht & _ & _ & _ & _ & _ & _ & Hi).
  split; [exact Ht|exact Hi].
Defined.

(** CheckSchema on a resource whose Alpha and Beta types both fail: the
    error is that of Alpha. *)
Example CheckSchema_on_unnamed :
  CheckSchema check_name (fresh base) = None ∧
  CheckSchema check_name unnamed = Some (errorString "schema: no Name string") ∧
  check_name (TPtr (typ (beta unnamed))) ≠ None.
Proof. by vm_compute. Qed.

(** The keys of a two-entry map, visited in either order. *)
Lemma sorted_keys_any_order_witness :
  let m : gmap string string := <["state" := "Exists"]> (<["localPlan" := "p"]> ∅) in
  merge_sort String.le ["state"; "localPlan"] = ["localPlan"; "state"] ∧
  merge_sort String.le ["localPlan"; "state"] = ["localPlan"; "state"] ∧
  graphviz.sorted_keys m = ["localPlan"; "state"].
Proof.
  simpl.
  assert (["state"; "localPlan"] ≡ₚ
            (map_to_list (<["state" := "Exists"]> (<["localPlan" := "p"]> (∅ : gmap string string)))).*1)
    as H1 by (vm_compute; first [reflexivity | apply perm_swap]).
  assert (["localPlan"; "state"] ≡ₚ
            (map_to_list (<["state" := "Exists"]> (<["localPlan" := "p"]> (∅ : gmap string string)))).*1)
    as H2 by (vm_compute; first [reflexivity | apply perm_swap]).
  destruct (sorted_keys_any_order _ _ H1) as [E1 _].
  destruct (sorted_keys_any_order _ _ H2) as [E2 _].
  split_and!; [etrans; [exact E1|reflexivity]|etrans; [exact E2|reflexivity]|reflexivity].
Defined.

End on_demo_more.
